(** * sopel-climacell: the reply formatting of the weather plugin

    A shallow embedding of [sopel_climacell/plugin.py]: the lookup tables,
    [get_wind], [_get_temp_color], [_get_value_format], [_parse_data], the
    sorting step of [get_weather] and the message splitting at the end of
    [weather], then [get_latlon] and the commands [weather] and
    [set_location], followed by the properties proved about them.

    Conventions.
    - A Python [str] is a Rocq [string] holding its UTF-8 encoding; [py_len]
      counts code points.  String constants are the source file's, character
      for character (the file declares [coding=utf8]); the escapes [↓]
      and the like of [get_wind] are written as the characters they denote.
    - A Python [int] is a [Z]; a finite [float] is the rational it denotes
      ([Q]), so that comparisons and truthiness are exact.  [nan] and the
      infinities, which Python's decoder accepts as the literals [NaN] and
      [Infinity] though JSON has none, are left out: the statements are
      about the finite numbers.
    - What a [float] looks like once printed, binary rounding, sopel's unit
      conversions, pendulum and the Unicode database are not modelled: they
      are the fields of the class [Externals], and every result holds for
      all of its instances.  So are the requests of the commands, the fields
      of the class [Services].
    - A dict whose order or size matters is the list of its items in
      insertion order, no key being there twice.
    - An exception is a value of [result]; [x <- c ;; k] propagates it. *)

From Stdlib Require Import String Ascii List ZArith QArith Bool Lia.
From Stdlib Require Import DecimalString Permutation Sorted Lqa.
Import ListNotations.
Local Open Scope list_scope.
Local Open Scope string_scope.

(** ** Exceptions *)

Inductive exception : Type :=
| KeyError
| TypeError
| ValueError
| AttributeError
| OtherError (name : string).

Inductive result (A : Type) : Type :=
| Ok (a : A)
| Raise (e : exception).

Arguments Ok {A} a.
Arguments Raise {A} e.

Definition bind {A B : Type} (c : result A) (k : A -> result B) : result B :=
  match c with
  | Ok a => k a
  | Raise e => Raise e
  end.

Notation "x <- c ;; k" := (bind c (fun x => k))
  (at level 61, c at next level, right associativity).

(** ** Python values, as the JSON of the weather API carries them *)

Inductive pyval : Type :=
| VNone
| VBool (b : bool)
| VInt (z : Z)
| VFloat (q : Q)
| VStr (s : string).

(** [bool(v)]. *)
Definition truthy (v : pyval) : bool :=
  match v with
  | VNone => false
  | VBool b => b
  | VInt z => negb (z =? 0)%Z
  | VFloat q => negb (Qeq_bool q 0)
  | VStr s => negb (s =? "")
  end.

(** [v == s] for a string literal [s]. *)
Definition py_eq (v : pyval) (s : string) : bool :=
  match v with
  | VStr t => t =? s
  | _ => false
  end.

(** The number a value stands for in a comparison or in [round]; [None]
    where Python raises [TypeError] ([bool] is a subclass of [int]). *)
Definition number (v : pyval) : option Q :=
  match v with
  | VBool b => Some (inject_Z (if b then 1 else 0))
  | VInt z => Some (inject_Z z)
  | VFloat q => Some q
  | VNone | VStr _ => None
  end.

Definition le (a b : Q) : bool := Qle_bool a b.
Definition lt (a b : Q) : bool := negb (Qle_bool b a).
Definition gt (a b : Q) : bool := lt b a.

(** A field of the response: a JSON object read at the keys [value] and
    [units] only ([None]: the key is absent), or any other JSON value. *)
Record value_map : Type := mk_value_map {
  value : option pyval;
  units : option pyval
}.

Inductive json : Type :=
| JObject (m : value_map)
| JOther.

(** [d.get(key)] and [d[key]] on such an object. *)
Definition get (entry : option pyval) : pyval :=
  match entry with
  | Some v => v
  | None => VNone
  end.

Definition item (entry : option pyval) : result pyval :=
  match entry with
  | Some v => Ok v
  | None => Raise KeyError
  end.

(** A dict with string keys whose order matters or whose size is counted. *)
Definition dict (A : Type) : Type := list (string * A).

Fixpoint lookup {A : Type} (k : string) (d : dict A) : option A :=
  match d with
  | [] => None
  | (k', a) :: rest => if k' =? k then Some a else lookup k rest
  end.

(** [d.get(k, default)]. *)
Definition get_or {A : Type} (d : dict A) (k : string) (default : A) : A :=
  match lookup k d with
  | Some a => a
  | None => default
  end.

Definition keys {A : Type} (d : dict A) : list string := map fst d.

(** [key in [...]]. *)
Definition member (k : string) (l : list string) : bool := existsb (String.eqb k) l.

(** ** What is not modelled *)

Class Externals : Type := {
  (** ["{}".format(x)] for a float [x]. *)
  float_str : Q -> string;
  (** [round(x, ndigits)] for a float [x]. *)
  float_round : Q -> Z -> Q;
  (** ["{:.2f}".format(v)]. *)
  format_2f : pyval -> result string;
  (** [sopel.modules.units.f_to_c] and [c_to_f]. *)
  f_to_c : pyval -> result Q;
  c_to_f : pyval -> result Q;
  (** [pendulum.parse(time, strict=False).in_tz(tz).format("h:mm A zz")]. *)
  pendulum_format : pyval -> string -> result string;
  (** [str.isprintable] on one code point above 127. *)
  isprintable : N -> bool;
  (** [template.format(pfx=.., field=..)] when the template holds a brace
      besides its leading ["{pfx}{field}"]. *)
  format_braces : string -> string -> string -> result string
}.

(** An instance for evaluating the model on inputs that reach none of the
    fields: no float, no temperature unit, no pressure, no sunrise or sunset,
    no brace and no character above 127 in a measured reply. *)
Definition no_externals : Externals := {|
  float_str := fun _ => "";
  float_round := fun q _ => q;
  format_2f := fun _ => Raise (OtherError "format_2f");
  f_to_c := fun _ => Raise (OtherError "f_to_c");
  c_to_f := fun _ => Raise (OtherError "c_to_f");
  pendulum_format := fun _ _ => Raise (OtherError "pendulum");
  isprintable := fun _ => true;
  format_braces := fun _ _ _ => Raise (OtherError "format")
|}.

(** ** Python builtins on numbers *)

(** [str(z)] for an int. *)
Definition str_int (z : Z) : string := NilZero.string_of_int (Z.to_int z).

(** [round(x)] for a float: to the nearest integer, ties to even. *)
Definition round_half_even (q : Q) : Z :=
  let n := Qnum q in
  let d := Zpos (Qden q) in
  let f := (n / d)%Z in
  let r := (n mod d)%Z in
  if (2 * r <? d)%Z then f
  else if (d <? 2 * r)%Z then (f + 1)%Z
  else if Z.even f then f else (f + 1)%Z.

(** [round(v)]. *)
Definition py_round (v : pyval) : result Z :=
  match v with
  | VBool b => Ok (if b then 1 else 0)%Z
  | VInt z => Ok z
  | VFloat q => Ok (round_half_even q)
  | VNone | VStr _ => Raise TypeError
  end.

(** ** sopel.formatting *)

Definition CONTROL_BOLD : string := String "002"%char "".
Definition CONTROL_COLOR : string := String "003"%char "".

Definition bold (text : string) : string := CONTROL_BOLD ++ text ++ CONTROL_BOLD.

Inductive colors : Type :=
| LIGHT_BLUE | TEAL | BLUE | LIGHT_GREEN | GREEN | YELLOW | ORANGE | RED.

(** The constants of [sopel.formatting.colors]. *)
Definition color_code (c : colors) : string :=
  match c with
  | LIGHT_BLUE => "12"
  | TEAL => "10"
  | BLUE => "02"
  | LIGHT_GREEN => "09"
  | GREEN => "03"
  | YELLOW => "08"
  | ORANGE => "07"
  | RED => "04"
  end.

(** [color(text, fg)]. *)
Definition color (text : string) (fg : colors) : string :=
  CONTROL_COLOR ++ color_code fg ++ text ++ CONTROL_COLOR.

(** ** The tables *)

Definition WEATHER_CODE_DESCRIPTIONS : dict string := [
  ("rain_heavy", "ðŸŒ§ï¸ Substantial rain");
  ("rain", "ðŸŒ§ï¸ Rain");
  ("rain_light", "ðŸŒ§ï¸ Light rain");
  ("freezing_rain_heavy", "ðŸ§ŠðŸŒ§ï¸ Substantial freezing rain");
  ("freezing_rain", "ðŸ§ŠðŸŒ§ï¸ Freezing rain");
  ("freezing_rain_light", "ðŸ§ŠðŸŒ§ï¸ Light freezing rain");
  ("freezing_drizzle", "ðŸ§ŠðŸŒ§ï¸ Light freezing rain falling in fine pieces");
  ("drizzle", "ðŸŒ¦ï¸ Drizzle");
  ("ice_pellets_heavy", "ðŸ§Š Substantial ice pellets");
  ("ice_pellets", "ðŸ§Š Ice pellets");
  ("ice_pellets_light", "ðŸ§Š Light ice pellets");
  ("snow_heavy", "â„ï¸ Substantial snow");
  ("snow", "â„ï¸ Snow");
  ("snow_light", "â„ï¸ Light snow");
  ("flurries", "â„ï¸ Flurries");
  ("tstorm", "ðŸŒ©ï¸ Thunderstorm conditions");
  ("fog_light", "ðŸŒ Light fog");
  ("fog", "ðŸŒ Fog");
  ("cloudy", "â˜ï¸ Cloudy");
  ("mostly_cloudy", "ðŸŒ¥ï¸ Mostly cloudy");
  ("partly_cloudy", "â›… Partly cloudy");
  ("mostly_clear", "ðŸŒ¤ï¸ Mostly clear");
  ("clear", "â˜€ï¸ Clear")
].

Definition MAPPED_FIELDS : dict string := [
  ("weather_code", bold "Conditions:");
  ("feels_like", bold "Feels Like:");
  ("dewpoint", bold "Dewpoint:");
  ("humidity", bold "Humidity:");
  ("wind_speed", bold "Wind Speed:");
  ("wind_direction", bold "Wind Direction:");
  ("wind_gust", bold "Wind Gust:");
  ("baro_pressure", bold "Pressure:");
  ("precipitation", bold "Precipitation:");
  ("precipitation_type", bold "Precipitation:");
  ("sunrise", bold "Sunrise:");
  ("sunset", bold "Sunset:");
  ("visibility", bold "Visibility:");
  ("cloud_cover", bold "Cloud Cover:");
  ("cloud_base", bold "Cloud Base:");
  ("cloud_ceiling", bold "Cloud Ceiling:");
  ("surface_shortwave_radiation", bold "Solar Radiation:");
  ("moon_phase", bold "Moon Pâ€‹hase:");
  ("epa_health_concern", bold "Air Quality:")
].

Definition SORTED_FIELDS : dict Z := [
  ("weather_code", 3);
  ("temp", 1);
  ("feels_like", 2);
  ("dewpoint", 7);
  ("humidity", 6);
  ("wind_speed", 8);
  ("wind_direction", 10);
  ("wind_gust", 9);
  ("baro_pressure", 11);
  ("precipitation", 5);
  ("precipitation_type", 4);
  ("sunrise", 12);
  ("sunset", 13);
  ("visibility", 14);
  ("cloud_cover", 15);
  ("cloud_base", 16);
  ("cloud_ceiling", 17);
  ("surface_shortwave_radiation", 18);
  ("moon_phase", 19);
  ("epa_health_concern", 20)
]%Z.

(** The table local to [moonphases] in [_get_value_format]. *)
Definition moon_phases : dict string := [
  ("new", "ðŸŒ‘ new moon");
  ("new_moon", "ðŸŒ‘ new moon");
  ("waxing_crescent", "ðŸŒ’ waxing crescent (1/4 full)");
  ("first_quarter", "ðŸŒ“ half moon (first quarter)");
  ("waxing_gibbous", "ðŸŒ” waxing gibbous (3/4 full)");
  ("full", "ðŸŒ• full moon");
  ("waning_gibbous", "ðŸŒ– waning gibbous (3/4 full)");
  ("third_quarter", "ðŸŒ— half moon (last quarter)");
  ("last_quarter", "ðŸŒ— half moon (last quarter)");
  ("waning_crescent", "ðŸŒ˜ waning crescent (1/4 full)")
].

(** [d[v]] for a table keyed by strings: any other key is hashable and
    absent. *)
Definition subscript (d : dict string) (v : pyval) : result string :=
  match v with
  | VStr s =>
      match lookup s d with
      | Some a => Ok a
      | None => Raise KeyError
      end
  | _ => Raise KeyError
  end.

(** ** [get_wind] and [_get_temp_color] *)

(** The last branch is the [return bearing] that ends the function: of all
    floats only [nan], for which every comparison is false, gets there. *)
Definition get_wind (bearing : pyval) : result pyval :=
  match number bearing with
  | None => Raise TypeError
  | Some b =>
      Ok (if le b 22.5 || gt b 337.5 then VStr "↓ N"
          else if gt b 22.5 && le b 67.5 then VStr "↙ NE"
          else if gt b 67.5 && le b 112.5 then VStr "← E"
          else if gt b 112.5 && le b 157.5 then VStr "↖ SE"
          else if gt b 157.5 && le b 202.5 then VStr "↑ S"
          else if gt b 202.5 && le b 247.5 then VStr "↗ SW"
          else if gt b 247.5 && le b 292.5 then VStr "→ W"
          else if gt b 292.5 && le b 337.5 then VStr "↘ NW"
          else bearing)
  end.

Definition _get_temp_color (f : pyval) : result colors :=
  match number f with
  | None => Raise TypeError
  | Some f =>
      Ok (if lt f 10 then LIGHT_BLUE
          else if lt f 32 then TEAL
          else if lt f 50 then BLUE
          else if lt f 60 then LIGHT_GREEN
          else if lt f 70 then GREEN
          else if lt f 80 then YELLOW
          else if lt f 90 then ORANGE
          else RED)
  end.

(** ** Python builtins on strings *)

(** [len(s)]: the bytes that start a code point. *)
Definition continuation_byte (c : ascii) : bool :=
  let n := N_of_ascii c in ((128 <=? n) && (n <? 192))%N.

Fixpoint py_len (s : string) : nat :=
  match s with
  | "" => 0
  | String c rest => if continuation_byte c then py_len rest else S (py_len rest)
  end.

(** [s.replace(old, new)] and [s.split(sep)], for a non-empty [old] and
    [sep]: matches are taken from the left and do not overlap.  [skip]
    counts the characters of a match still to be passed over. *)
Fixpoint replace_from (old new : string) (skip : nat) (s : string) : string :=
  match s with
  | "" => ""
  | String c rest =>
      match skip with
      | S k => replace_from old new k rest
      | O =>
          if prefix old s
          then new ++ replace_from old new (String.length old - 1) rest
          else String c (replace_from old new 0 rest)
      end
  end.

Definition replace (old new s : string) : string := replace_from old new 0 s.

Fixpoint split_from (sep : string) (skip : nat) (cur : string) (s : string)
  : list string :=
  match s with
  | "" => [cur]
  | String c rest =>
      match skip with
      | S k => split_from sep k cur rest
      | O =>
          if prefix sep s
          then cur :: split_from sep (String.length sep - 1) "" rest
          else split_from sep 0 (cur ++ String c "") rest
      end
  end.

Definition split (sep s : string) : list string := split_from sep 0 "" s.

(** [sep.join(l)]. *)
Definition join (sep : string) (l : list string) : string := String.concat sep l.

Fixpoint contains (c : ascii) (s : string) : bool :=
  match s with
  | "" => false
  | String c' rest => (c' =? c)%char || contains c rest
  end.

Definition hex_digit (n : N) : ascii :=
  match String.get (N.to_nat n) "0123456789abcdef" with
  | Some c => c
  | None => "0"%char
  end.

Fixpoint hex (width : nat) (n : N) : string :=
  match width with
  | O => ""
  | S w => hex w (n / 16)%N ++ String (hex_digit (n mod 16)%N) ""
  end.

(** The code point that the lead byte [lead] starts, its continuation
    bytes being the first ones of [rest]. *)
Fixpoint continuation (k : nat) (acc : N) (s : string) : N :=
  match k, s with
  | S k', String c rest => continuation k' (acc * 64 + N_of_ascii c mod 64)%N rest
  | _, _ => acc
  end.

Definition code_point (lead : N) (rest : string) : N :=
  if (lead <? 224)%N then continuation 1 (lead mod 32)%N rest
  else if (lead <? 240)%N then continuation 2 (lead mod 16)%N rest
  else continuation 3 (lead mod 8)%N rest.

Definition squote : ascii := "'"%char.
Definition dquote : ascii := "034"%char.
Definition backslash : ascii := "\"%char.

(** [repr] of one ASCII character inside the quotes [quote]. *)
Definition repr_ascii (quote c : ascii) : string :=
  let n := N_of_ascii c in
  if (c =? quote)%char || (c =? backslash)%char then String backslash (String c "")
  else if (n =? 9)%N then "\t"
  else if (n =? 10)%N then "\n"
  else if (n =? 13)%N then "\r"
  else if ((n <? 32) || (n =? 127))%N then "\x" ++ hex 2 n
  else String c "".

(** [repr] of one code point above 127 that is not printable. *)
Definition repr_escape (cp : N) : string :=
  if (cp <=? 255)%N then "\x" ++ hex 2 cp
  else if (cp <=? 65535)%N then "\u" ++ hex 4 cp
  else "\U" ++ hex 8 cp.

(** [str.format] with the keywords [pfx] and [field], on a template that
    starts with ["{pfx}{field}"]. *)
Fixpoint strip_prefix (p s : string) : option string :=
  match p, s with
  | "", _ => Some s
  | String a p', String b s' => if (a =? b)%char then strip_prefix p' s' else None
  | String _ _, "" => None
  end.

Definition has_brace (s : string) : bool := contains "{" s || contains "}" s.

Section Plugin.

Context {ext : Externals}.

Definition format (template pfx field : string) : result string :=
  match strip_prefix "{pfx}{field}" template with
  | Some rest =>
      if has_brace rest then format_braces template pfx field
      else Ok (pfx ++ field ++ rest)
  | None => format_braces template pfx field
  end.

(** [repr(s)]: [keep] tells whether the continuation bytes met belong to
    a character that is copied. *)
Fixpoint repr_body (quote : ascii) (keep : bool) (s : string) : string :=
  match s with
  | "" => ""
  | String c rest =>
      let n := N_of_ascii c in
      if (n <? 128)%N then repr_ascii quote c ++ repr_body quote true rest
      else if (n <? 192)%N then
        if keep then String c (repr_body quote keep rest)
        else repr_body quote keep rest
      else if isprintable (code_point n rest) then String c (repr_body quote true rest)
      else repr_escape (code_point n rest) ++ repr_body quote false rest
  end.

Definition repr (s : string) : string :=
  let quote := if contains squote s && negb (contains dquote s) then dquote else squote in
  String quote (repr_body quote true s ++ String quote "").

(** [str(v)], which is also ["{}".format(v)]. *)
Definition str (v : pyval) : string :=
  match v with
  | VNone => "None"
  | VBool b => if b then "True" else "False"
  | VInt z => str_int z
  | VFloat q => float_str q
  | VStr s => s
  end.

(** [round(v, ndigits)] for [ndigits >= 0]. *)
Definition round_to (v : pyval) (ndigits : Z) : result pyval :=
  match v with
  | VBool b => Ok (VInt (if b then 1 else 0))
  | VInt z => Ok (VInt z)
  | VFloat q => Ok (VFloat (float_round q ndigits))
  | VNone | VStr _ => Raise TypeError
  end.

(** ** [_get_value_format] *)

Definition moonphases (value : pyval) : result string := subscript moon_phases value.

Definition round_int (value : pyval) : result string :=
  z <- py_round value ;; Ok (str (VInt z)).

Definition round_decimal (value : pyval) : result string :=
  r <- round_to value 2 ;; format_2f r.

Definition stringify (value : pyval) : result string := Ok (str value).

Definition formats : dict (pyval -> result string) := [
  ("humidity", round_int);
  ("baro_pressure", round_decimal);
  ("wind_speed", round_int);
  ("wind_gust", round_int);
  ("moon_phase", moonphases);
  ("visibility", round_int);
  ("surface_shortwave_radiation", round_int)
].

Definition _get_value_format (value : pyval) (field : string) : result string :=
  let func := match lookup field formats with
              | Some f => f
              | None => stringify
              end in
  func value.

(** The [try] statement around the call: the value left in
    [value_map["value"]], the exception being passed over. *)
Definition formatted (value : pyval) (field : string) : pyval :=
  match _get_value_format value field with
  | Ok s => VStr s
  | Raise _ => value
  end.

Definition _parse_time (time : pyval) (tz : string) : result string :=
  pendulum_format time tz.

(** ** [_parse_data] *)

(** [Template("{pfx}{field} $value$units").safe_substitute(value_map)]. *)
Definition safe_substitute (m : value_map) : string :=
  "{pfx}{field} "
  ++ match value m with Some v => str v | None => "$value" end
  ++ match units m with Some u => str u | None => "$units" end.

(** The temperature strings of the branches for the units [F] and [C]. *)
Definition fahrenheit_text (v : pyval) : result string :=
  f_color <- _get_temp_color v ;;
  f <- py_round v ;;
  c <- f_to_c v ;;
  Ok (color (str (VInt f)) f_color ++ "Â°F/"
      ++ color (str (VFloat (float_round c 1))) f_color ++ "Â°C").

Definition celsius_text (v : pyval) : result string :=
  f <- c_to_f v ;;
  f_color <- _get_temp_color (VFloat f) ;;
  c <- round_to v 1 ;;
  f' <- c_to_f v ;;
  Ok (color (str c) f_color ++ "Â°C/"
      ++ color (str (VInt (round_half_even f'))) f_color ++ "Â°F").

(** The body of the loop from the first [continue] to the call of
    [safe_substitute]: [None] when the iteration ends in a [continue],
    else the text [template]. *)
Definition field_template (key : string) (values : json) (timezone : string)
  : result (option string) :=
  if member key ["lat"; "lon"; "observation_time"] then Ok None
  else
    match values with
    | JOther => Raise AttributeError
    | JObject values =>
        let value_map := values in
        if negb (truthy (get (value value_map))) || py_eq (get (value value_map)) "none"
        then Ok None
        else
          value_map <-
            (if key =? "weather_code" then
               v <- item (value values) ;;
               d <- subscript WEATHER_CODE_DESCRIPTIONS v ;;
               Ok (mk_value_map (Some (VStr d)) None)
             else Ok value_map) ;;
          value_map <-
            (if truthy (get (units value_map)) then
               u <- item (units value_map) ;;
               if py_eq u "F" then
                 v <- item (value value_map) ;;
                 t <- fahrenheit_text v ;;
                 Ok (mk_value_map (Some (VStr t)) None)
               else if py_eq u "C" then
                 v <- item (value value_map) ;;
                 t <- celsius_text v ;;
                 Ok (mk_value_map (Some (VStr t)) None)
               else Ok value_map
             else Ok value_map) ;;
          value_map <-
            (if key =? "wind_direction" then
               v <- item (value values) ;;
               w <- get_wind v ;;
               Ok (mk_value_map (Some w) None)
             else Ok value_map) ;;
          value_map <-
            (if member key ["sunrise"; "sunset"] then
               v <- item (value values) ;;
               t <- _parse_time v timezone ;;
               Ok (mk_value_map (Some (VStr t)) None)
             else Ok value_map) ;;
          v <- item (value value_map) ;;
          let value_map := mk_value_map (Some (formatted v key)) (units value_map) in
          Ok (Some (safe_substitute value_map))
    end.

(** The loop, with its variables [string] and [idx]. *)
Fixpoint parse_loop (items : dict json) (timezone : string)
  (string : String.string) (idx : nat) : result String.string :=
  match items with
  | [] => Ok string
  | (key, values) :: rest =>
      let prefix := if (idx =? 0)%nat then "" else " | " in
      t <- field_template key values timezone ;;
      match t with
      | None => parse_loop rest timezone string idx
      | Some template =>
          s <- format template prefix (get_or MAPPED_FIELDS key "") ;;
          parse_loop rest timezone (string ++ s) (S idx)
      end
  end.

Definition _parse_data (data : dict json) (timezone : string) : result string :=
  string <- parse_loop data timezone "" 0 ;;
  Ok (replace "$units" "" string).

(** ** The sorting step of [get_weather] *)

(** [sorted(l, key=key)]: a stable sort into ascending keys. *)
Fixpoint insert {A : Type} (key : A -> Z) (x : A) (l : list A) : list A :=
  match l with
  | [] => [x]
  | y :: rest => if (key x <=? key y)%Z then x :: l else y :: insert key x rest
  end.

Fixpoint sorted {A : Type} (key : A -> Z) (l : list A) : list A :=
  match l with
  | [] => []
  | x :: rest => insert key x (sorted key rest)
  end.

(** The value that the first loop of [get_weather] stores at [k]. *)
Definition sort_key (k : string) : Z :=
  match lookup k SORTED_FIELDS with
  | Some r => if truthy (VInt r) then r else 999
  | None => 999
  end.

Definition sort_keys (data : dict json) : dict Z :=
  map (fun k => (k, sort_key k)) (keys data).

(** [{k: data[k] for k in sorted(data, key=lambda x: sort_keys[x])}];
    both subscripts are at keys of [data]. *)
Definition sorted_dict (data : dict json) : dict json :=
  flat_map
    (fun k => match lookup k data with Some v => [(k, v)] | None => [] end)
    (sorted (fun x => match lookup x (sort_keys data) with Some r => r | None => 0%Z end)
            (keys data)).

(** What [get_weather] reads of [bundle]. *)
Record bundle : Type := mk_bundle {
  location : string;
  tz : string
}.

(** [get_weather], from the decoded response [data] on. *)
Definition get_weather (b : bundle) (data : dict json) : result string :=
  parsed_fields <- _parse_data (sorted_dict data) (tz b) ;;
  let location := bold ("[" ++ location b ++ "]") in
  Ok (location ++ " " ++ parsed_fields
      ++ " | Powered by ClimaCell API (https://www.climacell.co/weather-api)").

(** ** The end of [weather]: the messages said for [reply] *)

Definition weather_say (reply : string) : list string :=
  if (475 <? py_len (repr reply))%nat then
    let reply := split " | " reply in
    let div := (List.length reply / 2)%nat in
    [join " | " (firstn div reply); join " | " (skipn div reply)]
  else [reply].

End Plugin.

(** ** The commands [weather] and [setlocation] *)

(** A decoded JSON value, as [requests]' [json()] returns it and as sopel's
    database keeps it; an object is the list of its members, no key being
    there twice. *)
#[warnings="-register-all"] Inductive tree : Type :=
| Leaf (v : pyval)
| Arr (items : list tree)
| Obj (members : dict tree).

(** [bool(t)]. *)
Definition truth (t : tree) : bool :=
  match t with
  | Leaf v => truthy v
  | Arr [] => false
  | Arr (_ :: _) => true
  | Obj [] => false
  | Obj (_ :: _) => true
  end.

(** [t[key]] for a text [key]: only a dict takes one. *)
Definition getitem (t : tree) (key : string) : result tree :=
  match t with
  | Obj members =>
      match lookup key members with
      | Some v => Ok v
      | None => Raise KeyError
      end
  | Arr _ | Leaf _ => Raise TypeError
  end.

(** The bytes that continue the code point begun before [s]. *)
Fixpoint continuation_bytes (s : string) : string :=
  match s with
  | "" => ""
  | String c rest =>
      if continuation_byte c then String c (continuation_bytes rest) else ""
  end.

(** [t[0]]: the first item of a list, the first character of a text; no
    dict of JSON has the key [0]. *)
Definition getitem_0 (t : tree) : result tree :=
  match t with
  | Arr (x :: _) => Ok x
  | Arr [] => Raise (OtherError "IndexError")
  | Obj _ => Raise KeyError
  | Leaf (VStr (String c rest)) => Ok (Leaf (VStr (String c (continuation_bytes rest))))
  | Leaf (VStr "") => Raise (OtherError "IndexError")
  | Leaf _ => Raise TypeError
  end.

(** The requests and the Unicode functions of the commands, which are not
    modelled; every result holds for all instances. *)
Class Services : Type := {
  (** [requests.get(url).json()] for the url that [get_latlon] makes of
      the address and the key; the request and the decoding may raise. *)
  geocode : string -> string -> result tree;
  (** [_get_timezone(lat, lng, pendulum.now().int_timestamp, key)]: the
      [timeZoneId] of the answer of the timezone API, a text; the request,
      the decoding and the subscript may raise. *)
  _get_timezone : tree -> tree -> string -> result string;
  (** [requests.get(url).json()] for the url that [get_weather] makes of
      latitude, longitude, fields, units and key: the answer, a JSON
      object, as the dict of its fields; the request and the decoding may
      raise. *)
  realtime : tree -> tree -> string -> string -> string -> result (dict json);
  (** [s.strip()] and [s.lower()]. *)
  strip : string -> string;
  lower : string -> string;
  (** [str(t)] for a list or a dict. *)
  container_str : tree -> string
}.

(** What the commands read of [bot.config]; a key that is not configured
    is [None]. *)
Record config : Type := mk_config {
  climacell_api_key : option string;
  google_api_key : option string;
  now_info_items : list string;
  unit_system : string;
  help_prefix : string
}.

(** [not key or key == ''] *)
Definition missing (key : option string) : bool :=
  match key with
  | None => true
  | Some k => k =? ""
  end.

Definition key_text (key : option string) : string :=
  match key with
  | Some k => k
  | None => ""
  end.

(** What the commands read of [trigger]: the nick, the command as it was
    typed and the rest of the line, [None] when there is none. *)
Record trigger : Type := mk_trigger {
  nick : string;
  group_1 : string;
  group_2 : option string
}.

(** [trigger.group(2)] when it is truthy. *)
Definition argument (t : trigger) : option string :=
  match group_2 t with
  | Some "" | None => None
  | Some arg => Some arg
  end.

(** [bot.db], as far as the commands use it: the values set for a nick and
    a key, the latest first; a value never set reads as [None]. *)
Definition db : Type := list (string * string * tree).

Fixpoint get_nick_value (store : db) (nick key : string) : tree :=
  match store with
  | [] => Leaf VNone
  | (n, k, v) :: rest =>
      if (n =? nick) && (k =? key) then v else get_nick_value rest nick key
  end.

Definition set_nick_value (store : db) (nick key : string) (value : tree) : db :=
  (nick, key, value) :: store.

(** What a command does to the channel, and what it returns to sopel. *)
Inductive action : Type :=
| Reply (text : string)
| Say (text : string).

Inductive returned : Type :=
| ReturnNone
| NOLIMIT.

Section Commands.

Context {ext : Externals} {net : Services}.

(** [str(t)], which is also ["{}".format(t)]. *)
Definition tree_str (t : tree) : string :=
  match t with
  | Leaf v => str v
  | Arr _ | Obj _ => container_str t
  end.

(** [get_latlon]: the three names are bound in the order [loc], [lat],
    [lon], and the first exception, whichever it is, ends the binding. *)
Definition get_latlon (user_location api_key : string) : tree * tree * tree :=
  let none := Leaf VNone in
  match (data <- geocode user_location api_key ;;
         results <- getitem data "results" ;;
         getitem_0 results) with
  | Raise _ => (none, none, none)
  | Ok data =>
      match getitem data "formatted_address" with
      | Raise _ => (none, none, none)
      | Ok loc =>
          match (geometry <- getitem data "geometry" ;;
                 location <- getitem geometry "location" ;;
                 getitem location "lat") with
          | Raise _ => (none, none, loc)
          | Ok lat =>
              match (geometry <- getitem data "geometry" ;;
                     location <- getitem geometry "location" ;;
                     getitem location "lng") with
              | Raise _ => (lat, none, loc)
              | Ok lon => (lat, lon, loc)
              end
          end
      end
  end.

(** [weather] from the timezone on: [_get_timezone], the bundle,
    [get_weather] and the messages. *)
Definition report (bot : config) (latitude longitude location : tree)
  : result (list action * returned) :=
  let api_key := key_text (climacell_api_key bot) in
  zone <- _get_timezone latitude longitude (key_text (google_api_key bot)) ;;
  data <- realtime latitude longitude (join "," (now_info_items bot))
            (unit_system bot) api_key ;;
  reply <- get_weather (mk_bundle (tree_str location) zone) data ;;
  Ok (map Say (weather_say reply), ReturnNone).

Definition weather (bot : config) (store : db) (t : trigger)
  : result (list action * returned) :=
  if missing (climacell_api_key bot) then
    Ok ([Reply "No ClimaCell API key found, please configure this plugin."],
        ReturnNone)
  else if missing (google_api_key bot) then
    Ok ([Reply "No Google API key found, please configure this plugin."],
        ReturnNone)
  else
    match argument t with
    | None =>
        let latitude := get_nick_value store (nick t) "latitude" in
        let longitude := get_nick_value store (nick t) "longitude" in
        let location := get_nick_value store (nick t) "location" in
        if truth location then report bot latitude longitude location
        else
          Ok ([Say ("I don't know where you live. Give me a location, like "
                    ++ help_prefix bot ++ group_1 t
                    ++ " London, or tell me where you live by saying "
                    ++ help_prefix bot ++ "setlocation London, for example.")],
              ReturnNone)
    | Some arg =>
        let user_input := lower (strip arg) in
        let user_input :=
          if user_input =? "chaz" then "capitol hill seattle" else user_input in
        let '(latitude, longitude, location) :=
          get_latlon user_input (key_text (google_api_key bot)) in
        if truth latitude then report bot latitude longitude location
        else Ok ([Reply "I couldn't find a location by that name."], NOLIMIT)
    end.

Definition set_location (bot : config) (store : db) (t : trigger)
  : db * list action * returned :=
  if missing (google_api_key bot) then
    (store, [Reply "No Google API key found, please configure this plugin."],
     ReturnNone)
  else
    match argument t with
    | None =>
        (store,
         [Reply ("Give me a location, like " ++ String dquote "Boston"
                 ++ String dquote " or " ++ String dquote "90210"
                 ++ String dquote ".")],
         NOLIMIT)
    | Some arg =>
        let user_input := lower (strip arg) in
        let '(latitude, longitude, location) :=
          get_latlon user_input (key_text (google_api_key bot)) in
        if truth latitude then
          let store := set_nick_value store (nick t) "latitude" latitude in
          let store := set_nick_value store (nick t) "longitude" longitude in
          let store := set_nick_value store (nick t) "location" location in
          (store, [Reply ("I now have you at " ++ tree_str location ++ ".")],
           ReturnNone)
        else (store, [Reply "I couldn't find a location by that name."], NOLIMIT)
    end.

End Commands.

(** ** Vocabulary of the statements *)

(** The keys with a branch of their own in the loop. *)
Definition own_branch : list string :=
  ["lat"; "lon"; "observation_time"; "weather_code"; "wind_direction";
   "sunrise"; "sunset"].

(** A text that neither [str.format] nor the final [replace] touches. *)
Definition plain (s : string) : bool := negb (has_brace s) && negb (contains "$" s).

(** The fields that [SORTED_FIELDS] ranks. *)
Definition ranked (kv : string * json) : bool :=
  match lookup (fst kv) SORTED_FIELDS with
  | Some _ => true
  | None => false
  end.

Definition unranked (kv : string * json) : bool := negb (ranked kv).

(** The key by which the fields, rather than their names, are sorted. *)
Definition field_rank (kv : string * json) : Z := sort_key (fst kv).

(** A response of twelve fields, none of which reaches an external, and
    the reply to it. *)
Definition sample_response : dict json := [
  ("humidity", JObject (mk_value_map (Some (VInt 55)) (Some (VStr "%"))));
  ("wind_speed", JObject (mk_value_map (Some (VInt 12)) (Some (VStr "mph"))));
  ("wind_gust", JObject (mk_value_map (Some (VInt 20)) (Some (VStr "mph"))));
  ("visibility", JObject (mk_value_map (Some (VInt 10)) (Some (VStr "mi"))));
  ("cloud_cover", JObject (mk_value_map (Some (VInt 40)) (Some (VStr "%"))));
  ("cloud_base", JObject (mk_value_map (Some (VInt 3000)) (Some (VStr "ft"))));
  ("cloud_ceiling", JObject (mk_value_map (Some (VInt 5000)) (Some (VStr "ft"))));
  ("precipitation", JObject (mk_value_map (Some (VInt 1)) (Some (VStr "in/hr"))));
  ("precipitation_type", JObject (mk_value_map (Some (VStr "rain")) None));
  ("surface_shortwave_radiation",
   JObject (mk_value_map (Some (VInt 250)) (Some (VStr "w/sqm"))));
  ("epa_health_concern", JObject (mk_value_map (Some (VStr "Good")) None));
  ("dewpoint", JObject (mk_value_map (Some (VInt 48)) (Some (VStr "degrees"))))
].

Definition sample_reply : result string :=
  @get_weather no_externals
    (mk_bundle "1600 Pennsylvania Avenue NW, Washington, DC 20500, USA" "America/New_York")
    sample_response.

Section Segments.

Context {ext : Externals}.

(** The texts that the fields of [items] add to the report, one for each
    field that is not passed over: what [str.format] makes of its template
    with an empty prefix. *)
Fixpoint segments (items : dict json) (timezone : string) : result (list string) :=
  match items with
  | [] => Ok []
  | (key, values) :: rest =>
      t <- field_template key values timezone ;;
      match t with
      | None => segments rest timezone
      | Some template =>
          s <- format template "" (get_or MAPPED_FIELDS key "") ;;
          l <- segments rest timezone ;;
          Ok (s :: l)
      end
  end.

End Segments.

(** The fields that the loop passes over without reading further. *)
Definition passed_over (kv : string * json) : Prop :=
  In (fst kv) ["lat"; "lon"; "observation_time"]
  \/ exists m,
       snd kv = JObject m
       /\ (truthy (get (value m)) = false \/ py_eq (get (value m)) "none" = true).

(** A geocoder that knows Boston, with and without a longitude, a place on
    the equator and a place with no address, for arguments that are stripped
    and in lower case; the weather is [sample_response] everywhere. *)
Definition geocoded (address : string) (coordinates : dict tree) : tree :=
  Obj [("results",
        Arr [Obj [("formatted_address", Leaf (VStr address));
                  ("geometry", Obj [("location", Obj coordinates)])]]);
       ("status", Leaf (VStr "OK"))].

Definition sample_services : Services := {|
  geocode := fun address _ =>
    if address =? "boston" then
      Ok (geocoded "Boston, MA, USA"
            [("lat", Leaf (VFloat (423600825 # 10000000)));
             ("lng", Leaf (VFloat (-710588801 # 10000000)))])
    else if address =? "boston, no longitude" then
      Ok (geocoded "Boston, MA, USA" [("lat", Leaf (VFloat (423600825 # 10000000)))])
    else if address =? "quito" then
      Ok (geocoded "Mitad del Mundo, Quito, Ecuador"
            [("lat", Leaf (VFloat 0)); ("lng", Leaf (VFloat (-784558 # 10000)))])
    else if address =? "point nemo" then
      Ok (geocoded ""
            [("lat", Leaf (VFloat (-488767 # 10000)));
             ("lng", Leaf (VFloat (-1233933 # 10000)))])
    else Ok (Obj [("results", Arr []); ("status", Leaf (VStr "ZERO_RESULTS"))]);
  _get_timezone := fun _ _ _ => Ok "America/New_York";
  realtime := fun _ _ _ _ _ => Ok sample_response;
  strip := fun s => s;
  lower := fun s => s;
  container_str := fun _ => ""
|}.

Definition sample_config : config :=
  mk_config (Some "climacell-key") (Some "google-key")
    ["temp"; "feels_like"; "weather_code"] "us" ".".

(** ** The temperature arithmetic of the specification *)

(** Modelled from the spec: sopel's [f_to_c], which is not under [src/];
    "conversion via standard Fahrenheit→Celsius formula", [(F-32)*5/9],
    computed exactly. *)
Definition spec_f_to_c (F : Q) : Q := ((F - 32) * 5 / 9)%Q.

(** Modelled from the spec: [round(x, ndigits)] on a float, as in "C rounded
    to 1 decimal place", computed exactly; a tie goes to the even side. *)
Definition spec_round (q : Q) (ndigits : Z) : Q :=
  (inject_Z (round_half_even (q * inject_Z (10 ^ ndigits))) / inject_Z (10 ^ ndigits))%Q.

(** Modelled from the spec: what "C rounded to 1 decimal place" looks like
    in the text, the numeral with one decimal that is nearest to [q]. *)
Definition tenths (q : Q) : string :=
  let t := round_half_even (q * 10)%Q in
  (if (t <? 0)%Z then "-" else "")
  ++ str_int (Z.abs t / 10) ++ "." ++ str_int (Z.abs t mod 10).

(** Modelled from the spec: externals that compute the branch for the unit
    [F] exactly; the fields that the branch does not reach are those of
    [no_externals]. *)
Definition exact_externals : Externals := {|
  float_str := tenths;
  float_round := spec_round;
  format_2f := fun _ => Raise (OtherError "format_2f");
  f_to_c := fun v =>
    match number v with
    | Some F => Ok (spec_f_to_c F)
    | None => Raise TypeError
    end;
  c_to_f := fun _ => Raise (OtherError "c_to_f");
  pendulum_format := fun _ _ => Raise (OtherError "pendulum");
  isprintable := fun _ => true;
  format_braces := fun _ _ _ => Raise (OtherError "format")
|}.

(** * Properties *)

Local Open Scope Q_scope.

(** ** Comparisons *)

Lemma le_iff (a b : Q) : le a b = true <-> a <= b.
Proof. apply Qle_bool_iff. Qed.

Lemma lt_iff (a b : Q) : lt a b = true <-> a < b.
Proof.
  unfold lt. rewrite negb_true_iff. split; intro H.
  - apply Qnot_le_lt. intro L. apply Qle_bool_iff in L. congruence.
  - destruct (Qle_bool b a) eqn:E; [|reflexivity].
    apply Qle_bool_iff in E. exfalso. exact (Qlt_not_le _ _ H E).
Qed.

Lemma le_false_iff (a b : Q) : le a b = false <-> b < a.
Proof.
  rewrite <- lt_iff. unfold lt, le. destruct (Qle_bool a b); simpl; intuition congruence.
Qed.

Lemma lt_false_iff (a b : Q) : lt a b = false <-> b <= a.
Proof.
  rewrite <- le_iff. unfold lt, le. destruct (Qle_bool b a); simpl; intuition congruence.
Qed.

Ltac order_facts :=
  repeat match goal with
  | H : le _ _ = true |- _ => apply le_iff in H
  | H : le _ _ = false |- _ => apply le_false_iff in H
  | H : lt _ _ = true |- _ => apply lt_iff in H
  | H : lt _ _ = false |- _ => apply lt_false_iff in H
  end.

(** Decides a chain of comparisons from the hypotheses on its argument. *)
Ltac decide_chain :=
  repeat match goal with
  | |- context [le ?a ?b] =>
      let E := fresh "E" in destruct (le a b) eqn:E; order_facts; simpl; try (exfalso; lra)
  | |- context [lt ?a ?b] =>
      let E := fresh "E" in destruct (lt a b) eqn:E; order_facts; simpl; try (exfalso; lra)
  end;
  try reflexivity.

(** ** [get_wind] *)

Lemma get_wind_north (bearing : pyval) (b : Q) :
  number bearing = Some b -> b <= 22.5 \/ 337.5 < b ->
  get_wind bearing = Ok (VStr "↓ N").
Proof.
  intros Hn Hb. unfold get_wind, gt. rewrite Hn. f_equal.
  destruct Hb; decide_chain.
Qed.

Lemma get_wind_sector (bearing : pyval) (b lower : Q) (label : string) :
  number bearing = Some b ->
  In (lower, label)
     [(22.5, "↙ NE"); (67.5, "← E"); (112.5, "↖ SE"); (157.5, "↑ S");
      (202.5, "↗ SW"); (247.5, "→ W"); (292.5, "↘ NW")] ->
  lower < b <= lower + 45 ->
  get_wind bearing = Ok (VStr label).
Proof.
  intros Hn Hin [Hlo Hhi]. unfold get_wind, gt. rewrite Hn. f_equal.
  simpl in Hin.
  repeat (destruct Hin as [Hin | Hin];
          [ injection Hin as <- <-; simpl in Hhi; decide_chain | ]).
  contradiction.
Qed.

(** C2, as amended: [get_wind] sends a bearing to one of eight sectors, N
    being everything up to 22.5 and everything above 337.5 and each of the
    seven others a half-open interval (lower, lower + 45]; 0 is N, 45 is NE,
    and 337.5, the closed upper end of NW, is NW. *)
Theorem get_wind_sectors (bearing : pyval) (b : Q) :
  number bearing = Some b ->
  (b <= 22.5 \/ 337.5 < b -> get_wind bearing = Ok (VStr "↓ N"))
  /\ (22.5 < b <= 67.5 -> get_wind bearing = Ok (VStr "↙ NE"))
  /\ (67.5 < b <= 112.5 -> get_wind bearing = Ok (VStr "← E"))
  /\ (112.5 < b <= 157.5 -> get_wind bearing = Ok (VStr "↖ SE"))
  /\ (157.5 < b <= 202.5 -> get_wind bearing = Ok (VStr "↑ S"))
  /\ (202.5 < b <= 247.5 -> get_wind bearing = Ok (VStr "↗ SW"))
  /\ (247.5 < b <= 292.5 -> get_wind bearing = Ok (VStr "→ W"))
  /\ (292.5 < b <= 337.5 -> get_wind bearing = Ok (VStr "↘ NW"))
  /\ get_wind (VInt 0) = Ok (VStr "↓ N")
  /\ get_wind (VInt 45) = Ok (VStr "↙ NE")
  /\ get_wind (VFloat 337.5) = Ok (VStr "↘ NW").
Proof.
  intro Hn.
  split; [apply (get_wind_north _ _ Hn)|].
  repeat (split;
          [ intros [Hlo Hhi]; eapply (get_wind_sector _ _ _ _ Hn);
            [ simpl; intuition (auto; fail) | split; [exact Hlo | simpl; lra] ] | ]).
  repeat split; reflexivity.
Qed.

Lemma get_wind_sectors_witness : get_wind (VInt 180) = Ok (VStr "↑ S").
Proof.
  destruct (get_wind_sectors (VInt 180) (inject_Z 180) eq_refl)
    as (_ & _ & _ & _ & H & _).
  apply H. split; vm_compute; [reflexivity | discriminate].
Defined.

(** C2, as stated, fails at 337.5: [bearing > 337.5] is strict, so that
    bearing falls through to the last branch. *)
Lemma get_wind_337_5 : get_wind (VFloat 337.5) = Ok (VStr "↘ NW").
Proof. reflexivity. Qed.

(** ** [_get_temp_color] *)

(** C3: eight colours with pairwise different codes, the bands being closed
    below and open above at 10, 32, 50, 60, 70, 80 and 90; exactly 10 is in
    the band below 32 (TEAL) and exactly 32 in the band below 50 (BLUE). *)
Theorem temp_color_bands (f : pyval) (q : Q) :
  number f = Some q ->
  (q < 10 -> _get_temp_color f = Ok LIGHT_BLUE)
  /\ (10 <= q < 32 -> _get_temp_color f = Ok TEAL)
  /\ (32 <= q < 50 -> _get_temp_color f = Ok BLUE)
  /\ (50 <= q < 60 -> _get_temp_color f = Ok LIGHT_GREEN)
  /\ (60 <= q < 70 -> _get_temp_color f = Ok GREEN)
  /\ (70 <= q < 80 -> _get_temp_color f = Ok YELLOW)
  /\ (80 <= q < 90 -> _get_temp_color f = Ok ORANGE)
  /\ (90 <= q -> _get_temp_color f = Ok RED)
  /\ _get_temp_color (VInt 10) = Ok TEAL
  /\ _get_temp_color (VInt 32) = Ok BLUE
  /\ NoDup (map color_code
              [LIGHT_BLUE; TEAL; BLUE; LIGHT_GREEN; GREEN; YELLOW; ORANGE; RED]).
Proof.
  intro Hn. unfold _get_temp_color at 1 2 3 4 5 6 7 8. rewrite Hn.
  repeat (split; [ intros; f_equal; decide_chain | ]).
  simpl. repeat constructor; simpl; intuition discriminate.
Qed.

Lemma temp_color_bands_witness :
  _get_temp_color (VFloat 31.9) = Ok TEAL /\ _get_temp_color (VInt 95) = Ok RED.
Proof.
  split.
  - destruct (temp_color_bands (VFloat 31.9) 31.9 eq_refl) as (_ & H & _).
    apply H. split; vm_compute; [discriminate | reflexivity].
  - destruct (temp_color_bands (VInt 95) (inject_Z 95) eq_refl)
      as (_ & _ & _ & _ & _ & _ & _ & H & _).
    apply H. vm_compute. discriminate.
Defined.

Local Close Scope Q_scope.

(** ** Strings *)

Lemma append_empty_r (s : string) : s ++ "" = s.
Proof. induction s as [|c s IH]; simpl; [reflexivity | now rewrite IH]. Qed.

Lemma append_assoc' (a b c : string) : (a ++ b) ++ c = a ++ b ++ c.
Proof. induction a as [|x a IH]; simpl; [reflexivity | now rewrite IH]. Qed.

Lemma contains_app (c : ascii) (a b : string) :
  contains c (a ++ b) = contains c a || contains c b.
Proof.
  induction a as [|x a IH]; simpl; [reflexivity | rewrite IH; apply orb_assoc].
Qed.

Lemma has_brace_app (a b : string) :
  has_brace (a ++ b) = has_brace a || has_brace b.
Proof.
  unfold has_brace. rewrite !contains_app.
  destruct (contains "{" a), (contains "{" b), (contains "}" a), (contains "}" b);
    reflexivity.
Qed.

(** [replace] passes over a text that holds no dollar sign. *)
Lemma replace_units_app (s t : string) :
  contains "$" s = false ->
  replace "$units" "" (s ++ t) = s ++ replace "$units" "" t.
Proof.
  unfold replace. induction s as [|c s IH]; intro H; [reflexivity|].
  simpl in H. apply orb_false_iff in H as [Hc Hs].
  change (String c s ++ t) with (String c (s ++ t)).
  cbn [replace_from]. cbn [prefix].
  destruct (ascii_dec "$" c) as [<-|_]; [discriminate|].
  cbn [append]. now rewrite IH.
Qed.

Lemma replace_units_plain (s : string) :
  contains "$" s = false -> replace "$units" "" s = s.
Proof.
  intro H. rewrite <- (append_empty_r s) at 1.
  rewrite replace_units_app by exact H. apply append_empty_r.
Qed.

Lemma replace_units_marker (s : string) :
  contains "$" s = false -> replace "$units" "" (s ++ "$units") = s.
Proof.
  intro H. rewrite replace_units_app by exact H. apply append_empty_r.
Qed.

(** ** Dicts *)

Lemma lookup_None {A : Type} (k : string) (d : dict A) :
  ~ In k (keys d) -> lookup k d = None.
Proof.
  induction d as [|[k' a] d IH]; simpl; intro H; [reflexivity|].
  destruct (String.eqb_spec k' k) as [->|_]; [exfalso; auto | apply IH; auto].
Qed.

Lemma lookup_In {A : Type} (k : string) (a : A) (d : dict A) :
  lookup k d = Some a -> In (k, a) d.
Proof.
  induction d as [|[k' a'] d IH]; simpl; [discriminate|].
  destruct (String.eqb_spec k' k) as [->|_]; intro H.
  - injection H as <-. now left.
  - right. now apply IH.
Qed.

Lemma In_lookup {A : Type} (k : string) (a : A) (d : dict A) :
  NoDup (keys d) -> In (k, a) d -> lookup k d = Some a.
Proof.
  induction d as [|[k' a'] d IH]; simpl; intros Hnd Hin; [contradiction|].
  inversion Hnd as [|? ? Hk Hd]; subst.
  destruct Hin as [Heq | Hin].
  - injection Heq as -> ->. now rewrite String.eqb_refl.
  - destruct (String.eqb_spec k' k) as [->|_]; [|now apply IH].
    exfalso. apply Hk. change k with (fst (k, a)). now apply in_map.
Qed.

Lemma label_no_dollar (key : string) :
  contains "$" (get_or MAPPED_FIELDS key "") = false.
Proof.
  unfold get_or, MAPPED_FIELDS. cbn [lookup].
  repeat match goal with
         | |- context [if ?k =? key then _ else _] => destruct (k =? key)
         end; reflexivity.
Qed.

(** ** The loop of [_parse_data] *)

Section Loop.

Context {ext : Externals}.

Lemma format_plain (text pfx field : string) :
  has_brace text = false ->
  format ("{pfx}{field} " ++ text) pfx field = Ok (pfx ++ field ++ " " ++ text).
Proof.
  intro H. unfold format. cbn [append strip_prefix Ascii.eqb Bool.eqb].
  change (has_brace (String " " text)) with (has_brace (" " ++ text)).
  rewrite has_brace_app, H. reflexivity.
Qed.

(** An iteration that ends in [continue] leaves no trace. *)
Lemma parse_loop_continue (before after : dict json) (key : string)
  (values : json) (tz string : String.string) (idx : nat) :
  field_template key values tz = Ok None ->
  parse_loop ((before ++ (key, values) :: after)%list) tz string idx
  = parse_loop ((before ++ after)%list) tz string idx.
Proof.
  intro H. revert string idx.
  induction before as [|[k v] before IH]; intros string idx; cbn [app parse_loop].
  - now rewrite H.
  - destruct (field_template k v tz) as [[t|]|e]; cbn [bind]; auto.
    destruct (format t _ _); cbn [bind]; auto.
Qed.

(** An exception raised in an iteration, or before it, ends the loop. *)
Lemma parse_loop_raise (before after : dict json) (key : string)
  (values : json) (tz string : String.string) (idx : nat) (e : exception) :
  field_template key values tz = Raise e ->
  exists e', parse_loop ((before ++ (key, values) :: after)%list) tz string idx = Raise e'.
Proof.
  intro H. revert string idx.
  induction before as [|[k v] before IH]; intros string idx; cbn [app parse_loop].
  - rewrite H. now exists e.
  - destruct (field_template k v tz) as [[t|]|e1]; cbn [bind]; eauto.
    destruct (format t _ _) as [s|e2]; cbn [bind]; eauto.
Qed.

(** An iteration that reaches [string += ...] with a text free of braces. *)
Lemma parse_loop_step (rest : dict json) (key : string) (values : json)
  (tz string text : String.string) (idx : nat) :
  field_template key values tz = Ok (Some ("{pfx}{field} " ++ text)) ->
  has_brace text = false ->
  parse_loop ((key, values) :: rest) tz string idx
  = parse_loop rest tz
      (string ++ (if (idx =? 0)%nat then "" else " | ")
              ++ get_or MAPPED_FIELDS key "" ++ " " ++ text)
      (S idx).
Proof.
  intros H Hb. cbn [parse_loop]. rewrite H. cbn [bind].
  rewrite format_plain by exact Hb. reflexivity.
Qed.

(** The fields that the loop passes over. *)
Lemma field_template_dropped (key : string) (m : value_map) (tz : string) :
  truthy (get (value m)) = false \/ py_eq (get (value m)) "none" = true ->
  field_template key (JObject m) tz = Ok None.
Proof.
  intro H. unfold field_template.
  destruct (member key _); [reflexivity|].
  destruct H as [-> | ->]; [reflexivity | now rewrite orb_true_r].
Qed.

Lemma own_branch_false (key : string) :
  member key own_branch = false ->
  member key ["lat"; "lon"; "observation_time"] = false
  /\ (key =? "weather_code") = false
  /\ (key =? "wind_direction") = false
  /\ member key ["sunrise"; "sunset"] = false.
Proof.
  unfold member, own_branch. cbn [existsb].
  destruct (key =? "lat"), (key =? "lon"), (key =? "observation_time"),
    (key =? "weather_code"), (key =? "wind_direction"), (key =? "sunrise"),
    (key =? "sunset"); cbn; intro H; try discriminate; auto.
Qed.

(** A field with no branch of its own and no temperature unit: the
    template gets the formatted value and the unit as it is. *)
Lemma field_template_plain (key : string) (m : value_map) (v : pyval)
  (tz : string) :
  member key own_branch = false ->
  value m = Some v -> truthy v = true -> py_eq v "none" = false ->
  py_eq (get (units m)) "F" = false -> py_eq (get (units m)) "C" = false ->
  field_template key (JObject m) tz
  = Ok (Some (safe_substitute (mk_value_map (Some (formatted v key)) (units m)))).
Proof.
  intros Hk Hv Ht Hn HF HC.
  apply own_branch_false in Hk as (K1 & K2 & K3 & K4).
  unfold field_template. rewrite K1, K2, K3, K4, Hv. cbn [get].
  rewrite Ht, Hn. cbn [negb orb bind].
  destruct (units m) as [u|] eqn:Hu; cbn [get] in *.
  - destruct (truthy u); cbn [bind item]; rewrite ?HF, ?HC; cbn [bind];
      rewrite Hv; cbn [bind item]; rewrite ?Hu; reflexivity.
  - cbn [truthy bind]. rewrite Hv. cbn [bind item]. rewrite Hu. reflexivity.
Qed.

(** The same field with the unit [F] or [C]: the template gets the
    temperature string and no unit. *)
Lemma field_template_temperature (key : string) (m : value_map) (v : pyval)
  (u t tz : string) :
  member key own_branch = false ->
  value m = Some v -> truthy v = true -> py_eq v "none" = false ->
  units m = Some (VStr u) ->
  (u = "F" /\ fahrenheit_text v = Ok t) \/ (u = "C" /\ celsius_text v = Ok t) ->
  field_template key (JObject m) tz
  = Ok (Some (safe_substitute (mk_value_map (Some (formatted (VStr t) key)) None))).
Proof.
  intros Hk Hv Ht Hn Hu Hcase.
  apply own_branch_false in Hk as (K1 & K2 & K3 & K4).
  unfold field_template. rewrite K1, K2, K3, K4, Hv. cbn [get].
  rewrite Ht, Hn. cbn [negb orb bind]. rewrite Hu. cbn [get].
  destruct Hcase as [[-> Htext] | [-> Htext]]; cbn; rewrite Hv; cbn [bind item];
    rewrite Htext; reflexivity.
Qed.

End Loop.

(** ** One field, from the response to the reply *)

Lemma plain_true (s : string) :
  plain s = true -> has_brace s = false /\ contains "$" s = false.
Proof.
  unfold plain. destruct (has_brace s), (contains "$" s); cbn; intuition discriminate.
Qed.

Section Field.

Context {ext : Externals}.

(** A response of one field whose template carries no unit: the marker
    [$units] is taken out at the end. *)
Lemma parse_data_single_marker (key : string) (values : json) (tz text : string) :
  field_template key values tz = Ok (Some ("{pfx}{field} " ++ text ++ "$units")) ->
  plain text = true ->
  _parse_data [(key, values)] tz = Ok (get_or MAPPED_FIELDS key "" ++ " " ++ text).
Proof.
  intros H Hp. apply plain_true in Hp as [Hb Hd]. unfold _parse_data.
  rewrite (parse_loop_step [] key values tz "" (text ++ "$units") 0 H)
    by (rewrite has_brace_app, Hb; reflexivity).
  cbn [parse_loop bind Nat.eqb]. f_equal.
  change ("" ++ "" ++ get_or MAPPED_FIELDS key "" ++ " " ++ text ++ "$units")
    with (get_or MAPPED_FIELDS key "" ++ " " ++ text ++ "$units").
  rewrite <- (append_assoc' " " text "$units").
  rewrite <- (append_assoc' _ (" " ++ text) "$units").
  apply replace_units_marker.
  rewrite !contains_app, label_no_dollar, Hd. reflexivity.
Qed.

(** A response of one field whose template carries the text [unit]. *)
Lemma parse_data_single_unit (key : string) (values : json) (tz text unit : string) :
  field_template key values tz = Ok (Some ("{pfx}{field} " ++ text ++ unit)) ->
  plain (text ++ unit) = true ->
  _parse_data [(key, values)] tz = Ok (get_or MAPPED_FIELDS key "" ++ " " ++ text ++ unit).
Proof.
  intros H Hp. apply plain_true in Hp as [Hb Hd]. unfold _parse_data.
  rewrite (parse_loop_step [] key values tz "" (text ++ unit) 0 H) by exact Hb.
  cbn [parse_loop bind Nat.eqb]. f_equal.
  change ("" ++ "" ++ get_or MAPPED_FIELDS key "" ++ " " ++ text ++ unit)
    with (get_or MAPPED_FIELDS key "" ++ " " ++ text ++ unit).
  apply replace_units_plain.
  rewrite !contains_app, label_no_dollar. rewrite contains_app in Hd.
  rewrite Hd. reflexivity.
Qed.

End Field.

(** ** [weather_code] *)

Lemma subscript_unknown (d : dict string) (v : pyval) :
  (forall k, In k (keys d) -> v <> VStr k) -> subscript d v = Raise KeyError.
Proof.
  intro H. destruct v as [| | | |s]; try reflexivity.
  cbn [subscript]. rewrite lookup_None; [reflexivity|].
  intro Hin. now apply (H s Hin).
Qed.

(** C1, as amended: the table holds 23 codes; a field [weather_code] that
    carries one of them is rendered as its label and the description of the
    code, exactly; with any other value that the loop does not pass over, the
    subscript raises [KeyError], which ends [_parse_data]. *)
Theorem weather_code_table {ext : Externals} :
  List.length WEATHER_CODE_DESCRIPTIONS = 23%nat
  /\ NoDup (keys WEATHER_CODE_DESCRIPTIONS)
  /\ (forall code text u tz,
        In (code, text) WEATHER_CODE_DESCRIPTIONS ->
        field_template "weather_code" (JObject (mk_value_map (Some (VStr code)) u)) tz
        = Ok (Some ("{pfx}{field} " ++ text ++ "$units"))
        /\ _parse_data [("weather_code", JObject (mk_value_map (Some (VStr code)) u))] tz
           = Ok (bold "Conditions:" ++ " " ++ text))
  /\ (forall v u tz before after,
        truthy v = true -> py_eq v "none" = false ->
        (forall code, In code (keys WEATHER_CODE_DESCRIPTIONS) -> v <> VStr code) ->
        _parse_data [("weather_code", JObject (mk_value_map (Some v) u))] tz
        = Raise KeyError
        /\ exists e,
            _parse_data
              ((before ++ ("weather_code", JObject (mk_value_map (Some v) u)) :: after)%list)
              tz
            = Raise e).
Proof.
  split; [reflexivity|].
  split.
  { unfold keys, WEATHER_CODE_DESCRIPTIONS. cbn [map fst].
    repeat constructor; cbn [In]; intuition discriminate. }
  split.
  - intros code text u tz Hin. unfold WEATHER_CODE_DESCRIPTIONS in Hin. cbn [In] in Hin.
    repeat (destruct Hin as [Hin | Hin];
            [ injection Hin as <- <-; split; reflexivity | ]).
    contradiction.
  - intros v u tz before after Ht Hn Hv.
    assert (Hf : field_template "weather_code" (JObject (mk_value_map (Some v) u)) tz
                 = Raise KeyError).
    { unfold field_template. cbn [member existsb String.eqb Ascii.eqb Bool.eqb orb value get].
      rewrite Ht, Hn. cbn [negb orb item bind].
      rewrite (subscript_unknown _ _ Hv). reflexivity. }
    split.
    + unfold _parse_data. cbn [parse_loop]. rewrite Hf. reflexivity.
    + destruct (parse_loop_raise before after _ _ tz "" 0 _ Hf) as [e He].
      exists e. unfold _parse_data. rewrite He. reflexivity.
Qed.

Lemma weather_code_table_witness :
  @_parse_data no_externals
    [("weather_code", JObject (mk_value_map (Some (VStr "clear")) None))] "UTC"
  = Ok (bold "Conditions:" ++ " " ++ "â˜€ï¸ Clear")
  /\ @_parse_data no_externals
       [("weather_code", JObject (mk_value_map (Some (VStr "hail")) None))] "UTC"
     = Raise KeyError.
Proof.
  destruct (@weather_code_table no_externals) as (_ & _ & Hknown & Hunknown).
  split.
  - apply Hknown. unfold WEATHER_CODE_DESCRIPTIONS. cbn [In]. intuition (auto; fail).
  - apply (Hunknown (VStr "hail") None "UTC" [] []); [reflexivity | reflexivity |].
    intros code Hin. unfold keys, WEATHER_CODE_DESCRIPTIONS in Hin. cbn [map fst In] in Hin.
    intuition (subst; discriminate).
Defined.

(** C1, as stated, fails on the count: the table has 23 entries. *)
Lemma weather_code_count : List.length WEATHER_CODE_DESCRIPTIONS = 23%nat.
Proof. reflexivity. Qed.

(** ** [moon_phase] *)

(** C5, as amended: [_get_value_format] raises [KeyError] for a phase that
    is not one of the ten names of its table, but the [try] statement of
    [_parse_data] passes over the exception and the value is rendered as it
    came; each of the ten names is rendered as its mapped text. *)
Theorem moon_phase_table {ext : Externals} :
  List.length moon_phases = 10%nat
  /\ NoDup (keys moon_phases)
  /\ (forall name text tz,
        In (name, text) moon_phases ->
        _get_value_format (VStr name) "moon_phase" = Ok text
        /\ _parse_data [("moon_phase", JObject (mk_value_map (Some (VStr name)) None))] tz
           = Ok (bold "Moon Pâ€‹hase:" ++ " " ++ text))
  /\ (forall v,
        (forall name, In name (keys moon_phases) -> v <> VStr name) ->
        _get_value_format v "moon_phase" = Raise KeyError
        /\ formatted v "moon_phase" = v)
  /\ (forall phase tz,
        (forall name, In name (keys moon_phases) -> phase <> name) ->
        phase <> "" -> phase <> "none" -> plain phase = true ->
        _parse_data [("moon_phase", JObject (mk_value_map (Some (VStr phase)) None))] tz
        = Ok (bold "Moon Pâ€‹hase:" ++ " " ++ phase)).
Proof.
  assert (Hunknown : forall v,
             (forall name, In name (keys moon_phases) -> v <> VStr name) ->
             _get_value_format v "moon_phase" = Raise KeyError
             /\ formatted v "moon_phase" = v).
  { intros v Hv.
    assert (H : _get_value_format v "moon_phase" = Raise KeyError)
      by (apply (subscript_unknown moon_phases v Hv)).
    split; [exact H | unfold formatted; now rewrite H]. }
  split; [reflexivity|].
  split.
  { unfold keys, moon_phases. cbn [map fst].
    repeat constructor; cbn [In]; intuition discriminate. }
  split.
  { intros name text tz Hin. unfold moon_phases in Hin. cbn [In] in Hin.
    repeat (destruct Hin as [Hin | Hin];
            [ injection Hin as <- <-; split; reflexivity | ]).
    contradiction. }
  split; [exact Hunknown|].
  intros phase tz Hphase Hempty Hnone Hplain.
  apply (parse_data_single_marker "moon_phase" _ tz phase); [|exact Hplain].
  rewrite (field_template_plain "moon_phase" _ (VStr phase) tz); try reflexivity.
  - cbn [value units]. unfold safe_substitute. cbn [value units].
    destruct (Hunknown (VStr phase)) as [_ ->]; [|reflexivity].
    intros name Hin Heq. injection Heq as ->. now apply (Hphase name).
  - cbn [truthy]. now destruct (String.eqb_spec phase "").
  - cbn [py_eq]. now destruct (String.eqb_spec phase "none").
Qed.

Lemma moon_phase_table_witness :
  @_parse_data no_externals
    [("moon_phase", JObject (mk_value_map (Some (VStr "harvest")) None))] "UTC"
  = Ok (bold "Moon Pâ€‹hase:" ++ " " ++ "harvest").
Proof.
  destruct (@moon_phase_table no_externals) as (_ & _ & _ & _ & H).
  apply H; try reflexivity; try discriminate.
  intros name Hin. unfold keys, moon_phases in Hin. cbn [map fst In] in Hin.
  intuition (subst; discriminate).
Defined.

(** C5, as stated, fails: an unknown phase is rendered as it came. *)
Lemma moon_phase_unknown_rendered :
  @_parse_data no_externals
    [("moon_phase", JObject (mk_value_map (Some (VStr "blood_moon")) None))] "UTC"
  = Ok (bold "Moon Pâ€‹hase:" ++ " blood_moon").
Proof. reflexivity. Qed.

(** ** Labels and units *)

(** The fields whose value the loop replaces: the template gets the new
    value and the marker, whatever unit the field carries. *)
Lemma field_template_replaced {ext : Externals} (key : string) (m : value_map)
  (v : pyval) (tz template : string) :
  member key ["weather_code"; "wind_direction"; "sunrise"; "sunset"] = true ->
  value m = Some v ->
  field_template key (JObject m) tz = Ok (Some template) ->
  exists text,
    template = "{pfx}{field} " ++ text ++ "$units"
    /\ ((key = "weather_code" /\ subscript WEATHER_CODE_DESCRIPTIONS v = Ok text)
        \/ (key = "wind_direction" /\ exists w, get_wind v = Ok w /\ text = str w)
        \/ ((key = "sunrise" \/ key = "sunset") /\ _parse_time v tz = Ok text)).
Proof.
  intros Hk Hv H.
  assert (Hkey : key = "weather_code" \/ key = "wind_direction"
                 \/ key = "sunrise" \/ key = "sunset").
  { unfold member in Hk. cbn [existsb] in Hk.
    destruct (String.eqb_spec key "weather_code"); [tauto|].
    destruct (String.eqb_spec key "wind_direction"); [tauto|].
    destruct (String.eqb_spec key "sunrise"); [tauto|].
    destruct (String.eqb_spec key "sunset"); [tauto | discriminate]. }
  unfold field_template in H.
  destruct Hkey as [-> | [-> | [-> | ->]]];
    cbn [member existsb String.eqb Ascii.eqb Bool.eqb orb] in H;
    rewrite Hv in H; cbn [get] in H;
    (destruct (negb (truthy v) || py_eq v "none"); [discriminate|]).
  - cbn [item bind] in H.
    destruct (subscript WEATHER_CODE_DESCRIPTIONS v) as [d|e] eqn:Hd; [|discriminate].
    cbn in H. injection H as <-. exists d. split; [reflexivity | now left].
  - cbn [bind] in H.
    destruct (if truthy (get (units m)) then _ else _) as [m'|e]; [|discriminate].
    cbn [bind] in H. rewrite ?Hv in H. cbn [item bind] in H.
    destruct (get_wind v) as [w|e] eqn:Hw; [|discriminate].
    cbn in H. injection H as <-. exists (str w).
    split; [reflexivity|]. right. left. split; [reflexivity|]. now exists w.
  - cbn [bind] in H.
    destruct (if truthy (get (units m)) then _ else _) as [m'|e]; [|discriminate].
    cbn [bind] in H. rewrite ?Hv in H. cbn [item bind] in H.
    destruct (_parse_time v tz) as [t|e] eqn:Ht; [|discriminate].
    cbn in H. injection H as <-. exists t.
    split; [reflexivity|]. right. right. split; [now left | reflexivity].
  - cbn [bind] in H.
    destruct (if truthy (get (units m)) then _ else _) as [m'|e]; [|discriminate].
    cbn [bind] in H. rewrite ?Hv in H. cbn [item bind] in H.
    destruct (_parse_time v tz) as [t|e] eqn:Ht; [|discriminate].
    cbn in H. injection H as <-. exists t.
    split; [reflexivity|]. right. right. split; [now right | reflexivity].
Qed.

(** C6, as amended: a rendered field is its label (empty when the field has
    none), a space and the formatted value, followed by the unit as [str]
    prints it, unless the unit is [F] or [C]: for these two the value is the
    temperature string and no unit follows.  The fields [weather_code],
    [wind_direction], [sunrise] and [sunset] are the exception: their value
    is replaced by the description, the compass text or the time, and their
    unit is dropped.  The fields [lat], [lon] and [observation_time] are not
    rendered at all.  The texts are to hold no brace and no dollar sign,
    which [str.format] and the final [replace] would act on; the statement
    is made both for a step of the loop and for a response of that one
    field. *)
Theorem label_value_unit {ext : Externals} (key : string) (m : value_map)
  (v : pyval) (tz : string) :
  value m = Some v -> truthy v = true -> py_eq v "none" = false ->
  (member key own_branch = false ->
   (units m = None ->
    plain (str (formatted v key)) = true ->
    _parse_data [(key, JObject m)] tz
    = Ok (get_or MAPPED_FIELDS key "" ++ " " ++ str (formatted v key)))
   /\ (forall u,
         units m = Some u -> py_eq u "F" = false -> py_eq u "C" = false ->
         plain (str (formatted v key) ++ str u) = true ->
         _parse_data [(key, JObject m)] tz
         = Ok (get_or MAPPED_FIELDS key "" ++ " " ++ str (formatted v key) ++ str u)
         /\ forall rest string idx,
             parse_loop ((key, JObject m) :: rest) tz string idx
             = parse_loop rest tz
                 (string ++ (if (idx =? 0)%nat then "" else " | ")
                         ++ get_or MAPPED_FIELDS key "" ++ " "
                         ++ str (formatted v key) ++ str u)
                 (S idx))
   /\ (forall u t,
         units m = Some (VStr u) ->
         (u = "F" /\ fahrenheit_text v = Ok t) \/ (u = "C" /\ celsius_text v = Ok t) ->
         plain (str (formatted (VStr t) key)) = true ->
         _parse_data [(key, JObject m)] tz
         = Ok (get_or MAPPED_FIELDS key "" ++ " " ++ str (formatted (VStr t) key))))
  /\ (member key ["weather_code"; "wind_direction"; "sunrise"; "sunset"] = true ->
      forall template,
        field_template key (JObject m) tz = Ok (Some template) ->
        exists text,
          template = "{pfx}{field} " ++ text ++ "$units"
          /\ ((key = "weather_code" /\ subscript WEATHER_CODE_DESCRIPTIONS v = Ok text)
              \/ (key = "wind_direction" /\ exists w, get_wind v = Ok w /\ text = str w)
              \/ ((key = "sunrise" \/ key = "sunset") /\ _parse_time v tz = Ok text))
          /\ (plain text = true ->
              _parse_data [(key, JObject m)] tz
              = Ok (get_or MAPPED_FIELDS key "" ++ " " ++ text)
              /\ forall rest string idx,
                  parse_loop ((key, JObject m) :: rest) tz string idx
                  = parse_loop rest tz
                      (string ++ (if (idx =? 0)%nat then "" else " | ")
                              ++ get_or MAPPED_FIELDS key "" ++ " "
                              ++ text ++ "$units")
                      (S idx)))
  /\ (member key ["lat"; "lon"; "observation_time"] = true ->
      field_template key (JObject m) tz = Ok None
      /\ forall rest string idx,
          parse_loop ((key, JObject m) :: rest) tz string idx
          = parse_loop rest tz string idx).
Proof.
  intros Hv Ht Hn. split; [|split].
  - intro Hk. split; [|split].
    + intros Hu Hp. apply parse_data_single_marker; [|exact Hp].
      rewrite (field_template_plain key m v tz Hk Hv Ht Hn); rewrite Hu; reflexivity.
    + intros u Hu HF HC Hp.
      assert (Hf : field_template key (JObject m) tz
                   = Ok (Some ("{pfx}{field} " ++ str (formatted v key) ++ str u))).
      { rewrite (field_template_plain key m v tz Hk Hv Ht Hn); rewrite Hu; auto. }
      split.
      * apply parse_data_single_unit; assumption.
      * intros rest string idx. apply parse_loop_step; [exact Hf|].
        now apply plain_true in Hp.
    + intros u t Hu Hcase Hp. apply parse_data_single_marker; [|exact Hp].
      now rewrite (field_template_temperature key m v u t tz Hk Hv Ht Hn Hu Hcase).
  - intros Hk template Hf.
    destruct (field_template_replaced key m v tz template Hk Hv Hf)
      as (text & -> & Hcase).
    exists text. split; [reflexivity|]. split; [exact Hcase|].
    intro Hp. split.
    + now apply parse_data_single_marker.
    + intros rest string idx. apply parse_loop_step; [exact Hf|].
      apply plain_true in Hp as [Hb _]. rewrite has_brace_app, Hb. reflexivity.
  - intro Hk.
    assert (Hf : field_template key (JObject m) tz = Ok None)
      by (unfold field_template; now rewrite Hk).
    split; [exact Hf|].
    intros rest string idx. cbn [parse_loop]. now rewrite Hf.
Qed.

Lemma label_value_unit_witness :
  @_parse_data no_externals
    [("wind_speed", JObject (mk_value_map (Some (VInt 12)) (Some (VStr "mph"))))] "UTC"
  = Ok (bold "Wind Speed:" ++ " " ++ "12" ++ "mph")
  /\ @_parse_data no_externals
       [("wind_direction",
         JObject (mk_value_map (Some (VInt 180)) (Some (VStr "degrees"))))] "UTC"
     = Ok (bold "Wind Direction:" ++ " " ++ "↑ S").
Proof.
  split.
  - destruct (@label_value_unit no_externals "wind_speed"
                (mk_value_map (Some (VInt 12)) (Some (VStr "mph"))) (VInt 12) "UTC"
                eq_refl eq_refl eq_refl) as (H & _ & _).
    destruct (H eq_refl) as (_ & H' & _).
    destruct (H' (VStr "mph") eq_refl eq_refl eq_refl eq_refl) as [H1 _].
    exact H1.
  - destruct (@label_value_unit no_externals "wind_direction"
                (mk_value_map (Some (VInt 180)) (Some (VStr "degrees"))) (VInt 180)
                "UTC" eq_refl eq_refl eq_refl) as (_ & H & _).
    destruct (H eq_refl _ eq_refl) as (text & _ & Hcase & Hp).
    destruct Hcase as [[Hkey _] | [[_ (w & Hw & ->)] | [[Hkey | Hkey] _]]];
      try discriminate Hkey.
    vm_compute in Hw. injection Hw as <-. exact (proj1 (Hp eq_refl)).
Defined.

(** C6, as stated, fails: the unit of a humidity follows its value. *)
Lemma humidity_unit_appended :
  @_parse_data no_externals
    [("humidity", JObject (mk_value_map (Some (VInt 55)) (Some (VStr "%"))))] "UTC"
  = Ok (bold "Humidity:" ++ " 55%").
Proof. reflexivity. Qed.

(** ** Temperatures in Fahrenheit *)

Lemma round_half_even_spec (q : Q) :
  let z := round_half_even q in
  let n := Qnum q in
  let d := Zpos (Qden q) in
  (2 * z * d - d <= 2 * n <= 2 * z * d + d)%Z
  /\ ((2 * n = 2 * z * d + d \/ 2 * n = 2 * z * d - d)%Z -> Z.even z = true).
Proof.
  destruct q as [n d]. unfold round_half_even. cbn [Qnum Qden].
  pose proof (Z.div_mod n (Zpos d) ltac:(lia)) as Hdm.
  pose proof (Z.mod_pos_bound n (Zpos d) ltac:(lia)) as Hr.
  set (f := (n / Zpos d)%Z) in *. set (r := (n mod Zpos d)%Z) in *.
  destruct (Z.ltb_spec (2 * r) (Zpos d)) as [H1 | H1].
  - split; [nia|]. intros [H | H]; exfalso; nia.
  - destruct (Z.ltb_spec (Zpos d) (2 * r)) as [H2 | H2].
    + split; [nia|]. intros [H | H]; exfalso; nia.
    + assert (Hhalf : (2 * r = Zpos d)%Z) by lia.
      destruct (Z.even f) eqn:Ef.
      * split; [nia|]. intros _. exact Ef.
      * split; [nia|]. intros _. rewrite Z.even_add. rewrite Ef. reflexivity.
Qed.

Lemma round_half_even_near (q : Q) :
  (inject_Z (round_half_even q) - (1 # 2) <= q
   <= inject_Z (round_half_even q) + (1 # 2))%Q.
Proof.
  destruct (round_half_even_spec q) as [Hnear _].
  destruct q as [n d]. cbn [Qnum Qden] in *.
  set (z := round_half_even (n # d)) in *.
  unfold Qle, Qminus, Qplus, Qopp, inject_Z. cbn [Qnum Qden].
  rewrite !Pos2Z.inj_mul. split; nia.
Qed.

Lemma round_half_even_int (z : Z) : round_half_even (inject_Z z) = z.
Proof.
  unfold round_half_even, inject_Z. cbn [Qnum Qden].
  now rewrite Z.div_1_r, Z.mod_1_r.
Qed.

(** [round(v)] and [_get_temp_color(v)] on a number. *)
Lemma py_round_number (v : pyval) (F : Q) :
  number v = Some F -> py_round v = Ok (round_half_even F).
Proof.
  destruct v as [|b|z|q|s]; cbn [number py_round]; intro H;
    try discriminate H; injection H as <-.
  - now rewrite round_half_even_int.
  - now rewrite round_half_even_int.
  - reflexivity.
Qed.

Lemma temp_color_number (v : pyval) (F : Q) :
  number v = Some F -> exists band, _get_temp_color v = Ok band.
Proof. intro H. unfold _get_temp_color. rewrite H. eauto. Qed.

(** The texts of numbers and of colours hold no brace and no dollar. *)
Lemma plain_app (a b : string) : plain (a ++ b) = plain a && plain b.
Proof.
  unfold plain. rewrite has_brace_app, contains_app.
  destruct (has_brace a), (has_brace b), (contains "$" a), (contains "$" b);
    reflexivity.
Qed.

Lemma plain_cons (c : ascii) (s : string) :
  plain (String c s) = plain (String c "") && plain s.
Proof. exact (plain_app (String c "") s). Qed.

Lemma uint_plain (u : Decimal.uint) : plain (NilEmpty.string_of_uint u) = true.
Proof.
  induction u as [|u IH|u IH|u IH|u IH|u IH|u IH|u IH|u IH|u IH|u IH];
    cbn [NilEmpty.string_of_uint]; [reflexivity|..];
    rewrite plain_cons, IH; reflexivity.
Qed.

Lemma str_int_plain (z : Z) : plain (str_int z) = true.
Proof.
  unfold str_int, NilZero.string_of_int, NilZero.string_of_uint.
  destruct (Z.to_int z) as [u|u]; [|rewrite plain_cons];
    destruct u; try reflexivity; cbn [andb]; apply uint_plain.
Qed.

Lemma color_plain (text : string) (fg : colors) :
  plain text = true -> plain (color text fg) = true.
Proof.
  intro H. unfold color. rewrite !plain_app, H. now destruct fg.
Qed.

Lemma tenths_plain (q : Q) : plain (tenths q) = true.
Proof.
  unfold tenths. rewrite !plain_app, !str_int_plain.
  now destruct (round_half_even (q * 10) <? 0)%Z.
Qed.

(** [_get_value_format] leaves a coloured text as it is, either because it
    raises or because the field has no format. *)
Lemma formatted_colored {ext : Externals} (text rest key : string) (fg : colors) :
  formatted (VStr (color text fg ++ rest)) key = VStr (color text fg ++ rest).
Proof.
  unfold formatted, _get_value_format, formats. cbn [lookup].
  repeat match goal with
         | |- context [if ?k =? key then _ else _] => destruct (k =? key)
         end; reflexivity.
Qed.

(** C9, as amended: a field that carries the unit [F] and a number [F]
    other than 0, and that is none of the fields with a branch of their own,
    is rendered as its label and ["<F>Â°F/<C>Â°C"], the degree sign being
    spelled as the source file spells it and each number being wrapped in the
    colour of the band of [F]: [<F>] is [F] rounded to the nearest integer,
    ties to even, and [<C>] is what [round(f_to_c(F), 1)] prints; when
    sopel's [f_to_c], [round] and the printing compute the formula of the
    specification exactly, that is the numeral with one decimal nearest to
    [(F-32)*5/9].  A value 0 is falsy, and its field is dropped. *)
Theorem fahrenheit_pair {ext : Externals} (key : string) (m : value_map)
  (v : pyval) (F c : Q) (tz : string) :
  member key own_branch = false ->
  value m = Some v -> units m = Some (VStr "F") ->
  number v = Some F -> truthy v = true ->
  f_to_c v = Ok c ->
  plain (float_str (float_round c 1)) = true ->
  exists band,
    _get_temp_color v = Ok band
    /\ _parse_data [(key, JObject m)] tz
       = Ok (get_or MAPPED_FIELDS key "" ++ " "
             ++ color (str_int (round_half_even F)) band ++ "Â°F/"
             ++ color (float_str (float_round c 1)) band ++ "Â°C")
    /\ (inject_Z (round_half_even F) - (1 # 2) <= F
        <= inject_Z (round_half_even F) + (1 # 2))%Q
    /\ (c = spec_f_to_c F ->
        float_str (float_round c 1) = tenths c ->
        _parse_data [(key, JObject m)] tz
        = Ok (get_or MAPPED_FIELDS key "" ++ " "
              ++ color (str_int (round_half_even F)) band ++ "Â°F/"
              ++ color (tenths ((F - 32) * 5 / 9)%Q) band ++ "Â°C")
        /\ (inject_Z (round_half_even ((F - 32) * 5 / 9 * 10)%Q) - (1 # 2)
            <= (F - 32) * 5 / 9 * 10
            <= inject_Z (round_half_even ((F - 32) * 5 / 9 * 10)%Q) + (1 # 2))%Q).
Proof.
  intros Hk Hv Hu HF Ht Hc Hp.
  destruct (temp_color_number v F HF) as [band Hband]. exists band.
  split; [exact Hband|].
  set (t := color (str_int (round_half_even F)) band ++ "Â°F/"
            ++ color (float_str (float_round c 1)) band ++ "Â°C").
  assert (Htext : fahrenheit_text v = Ok t).
  { unfold fahrenheit_text. rewrite Hband. cbn [bind].
    rewrite (py_round_number v F HF). cbn [bind]. rewrite Hc. reflexivity. }
  assert (Hn : py_eq v "none" = false)
    by (destruct v; try reflexivity; discriminate HF).
  assert (Hparse : _parse_data [(key, JObject m)] tz
                   = Ok (get_or MAPPED_FIELDS key "" ++ " " ++ t)).
  { apply parse_data_single_marker.
    - rewrite (field_template_temperature key m v "F" t tz Hk Hv Ht Hn Hu)
        by (left; split; [reflexivity | exact Htext]).
      unfold t. rewrite formatted_colored. reflexivity.
    - unfold t. rewrite !plain_app, !color_plain; [reflexivity | exact Hp |].
      apply str_int_plain. }
  split; [exact Hparse|].
  split; [apply round_half_even_near|].
  intros Hexact Hprint. split.
  - rewrite Hparse. unfold t. rewrite Hprint, Hexact. reflexivity.
  - apply (round_half_even_near ((F - 32) * 5 / 9 * 10)%Q).
Qed.

Lemma fahrenheit_pair_witness :
  @_parse_data exact_externals
    [("feels_like", JObject (mk_value_map (Some (VInt 72)) (Some (VStr "F"))))] "UTC"
  = Ok (bold "Feels Like:" ++ " " ++ color "72" YELLOW ++ "Â°F/"
        ++ color "22.2" YELLOW ++ "Â°C").
Proof.
  destruct (@fahrenheit_pair exact_externals "feels_like"
              (mk_value_map (Some (VInt 72)) (Some (VStr "F"))) (VInt 72)
              (inject_Z 72) (spec_f_to_c (inject_Z 72)) "UTC"
              eq_refl eq_refl eq_refl eq_refl eq_refl eq_refl eq_refl)
    as (band & Hband & _ & _ & H).
  vm_compute in Hband. injection Hband as <-.
  destruct (H eq_refl eq_refl) as [H' _]. rewrite H'. reflexivity.
Defined.

(** C9, as stated, fails at zero degrees Fahrenheit: the field is dropped
    as falsy, and nothing is rendered. *)
Lemma fahrenheit_zero_dropped :
  @_parse_data exact_externals
    [("feels_like", JObject (mk_value_map (Some (VInt 0)) (Some (VStr "F"))))] "UTC"
  = Ok "".
Proof. reflexivity. Qed.

(** ** [sorted] *)

Section Sorted.

Context {A : Type}.

Local Open Scope Z_scope.

Lemma insert_perm (key : A -> Z) (x : A) (l : list A) :
  Permutation (insert key x l) (x :: l).
Proof.
  induction l as [|y l IH]; cbn [insert]; [reflexivity|].
  destruct (key x <=? key y); [reflexivity|].
  rewrite IH. apply perm_swap.
Qed.

Lemma sorted_perm (key : A -> Z) (l : list A) : Permutation (sorted key l) l.
Proof.
  induction l as [|x l IH]; cbn [sorted]; [reflexivity|].
  rewrite insert_perm. now constructor.
Qed.

Lemma sorted_In (key : A -> Z) (l : list A) (x : A) :
  In x (sorted key l) <-> In x l.
Proof.
  split; apply Permutation_in; [|symmetry]; apply sorted_perm.
Qed.

Lemma insert_sorted (key : A -> Z) (x : A) (l : list A) :
  StronglySorted (fun a b => key a <= key b) l ->
  StronglySorted (fun a b => key a <= key b) (insert key x l).
Proof.
  induction 1 as [|y l Hl IH Hy]; cbn [insert].
  - repeat constructor.
  - destruct (Z.leb_spec (key x) (key y)) as [Hle | Hgt].
    + constructor; [now constructor|].
      constructor; [exact Hle|].
      eapply Forall_impl; [|exact Hy]. cbn. intros; lia.
    + constructor; [exact IH|].
      rewrite Forall_forall. intros z Hz.
      apply (Permutation_in _ (insert_perm key x l)) in Hz.
      destruct Hz as [<- | Hz]; [lia|].
      rewrite Forall_forall in Hy. now apply Hy.
Qed.

Lemma sorted_sorted (key : A -> Z) (l : list A) :
  StronglySorted (fun a b => key a <= key b) (sorted key l).
Proof.
  induction l as [|x l IH]; cbn [sorted]; [constructor | now apply insert_sorted].
Qed.

(** Stability: the elements of one key keep their order. *)
Lemma insert_filter (key : A -> Z) (r : Z) (x : A) (l : list A) :
  filter (fun y => key y =? r) (insert key x l)
  = filter (fun y => key y =? r) (x :: l).
Proof.
  induction l as [|y l IH]; cbn [insert]; [reflexivity|].
  destruct (Z.leb_spec (key x) (key y)) as [Hle | Hgt]; [reflexivity|].
  cbn [filter] in *. rewrite IH.
  destruct (Z.eqb_spec (key x) r), (Z.eqb_spec (key y) r); try reflexivity; lia.
Qed.

Lemma sorted_stable (key : A -> Z) (r : Z) (l : list A) :
  filter (fun y => key y =? r) (sorted key l) = filter (fun y => key y =? r) l.
Proof.
  induction l as [|x l IH]; cbn [sorted]; [reflexivity|].
  rewrite insert_filter. cbn [filter]. now rewrite IH.
Qed.

Lemma insert_ext (key key' : A -> Z) (x : A) (l : list A) :
  key x = key' x -> (forall y, In y l -> key y = key' y) ->
  insert key x l = insert key' x l.
Proof.
  intros Hx. induction l as [|y l IH]; intro Hl; cbn [insert]; [reflexivity|].
  rewrite Hx, (Hl y (or_introl eq_refl)), IH; [reflexivity|].
  intros z Hz. apply Hl. now right.
Qed.

Lemma sorted_ext (key key' : A -> Z) (l : list A) :
  (forall y, In y l -> key y = key' y) -> sorted key l = sorted key' l.
Proof.
  induction l as [|x l IH]; intro Hl; cbn [sorted]; [reflexivity|].
  rewrite <- IH by (intros; apply Hl; now right).
  apply insert_ext; [apply Hl; now left|].
  intros y Hy. apply Hl. right. now apply sorted_In in Hy.
Qed.

Lemma filter_perm (p : A -> bool) (l l' : list A) :
  Permutation l l' -> Permutation (filter p l) (filter p l').
Proof.
  induction 1 as [|x l l' _ IH|x y l|l l' l'' _ IH1 _ IH2]; cbn [filter].
  - constructor.
  - destruct (p x); [now constructor | exact IH].
  - destruct (p x), (p y); try reflexivity. apply perm_swap.
  - now transitivity (filter p l').
Qed.

Lemma filter_sorted (R : A -> A -> Prop) (p : A -> bool) (l : list A) :
  StronglySorted R l -> StronglySorted R (filter p l).
Proof.
  induction 1 as [|x l Hl IH Hx]; cbn [filter]; [constructor|].
  destruct (p x); [|exact IH].
  constructor; [exact IH|].
  rewrite Forall_forall in *. intros y Hy. apply Hx.
  now apply filter_In in Hy.
Qed.

(** A list sorted by keys is the elements below a bound followed by the
    others. *)
Lemma sorted_cut (key : A -> Z) (bound : Z) (l : list A) :
  StronglySorted (fun a b => key a <= key b) l ->
  l = (filter (fun y => key y <? bound) l
       ++ filter (fun y => negb (key y <? bound)) l)%list.
Proof.
  induction 1 as [|x l Hl IH Hx]; cbn [filter]; [reflexivity|].
  destruct (Z.ltb_spec (key x) bound) as [Hlt | Hge]; cbn [negb app].
  - now rewrite <- IH.
  - assert (Hnone : filter (fun y => key y <? bound) l = []).
    { rewrite Forall_forall in Hx.
      destruct (filter (fun y => key y <? bound) l) as [|y t] eqn:E; [reflexivity|].
      assert (Hy : In y (filter (fun y => key y <? bound) l))
        by (rewrite E; now left).
      apply filter_In in Hy as [Hy1 Hy2]. apply Z.ltb_lt in Hy2.
      specialize (Hx y Hy1). lia. }
    rewrite Hnone in IH |- *. cbn [app] in *. now rewrite <- IH.
Qed.

(** Two sorted lists with the same elements are equal when no two
    elements are tied. *)
Lemma sorted_unique (R : A -> A -> Prop) (l l' : list A) :
  (forall a b, In a l -> In b l -> R a b -> R b a -> a = b) ->
  StronglySorted R l -> StronglySorted R l' -> Permutation l l' -> l = l'.
Proof.
  revert l'. induction l as [|x l IH]; intros l' Hanti Hs Hs' Hp.
  - now apply Permutation_nil in Hp.
  - destruct l' as [|y l'];
      [apply Permutation_sym, Permutation_nil in Hp; discriminate|].
    apply StronglySorted_inv in Hs as [Hs Hx].
    apply StronglySorted_inv in Hs' as [Hs' Hy].
    rewrite Forall_forall in Hx, Hy.
    assert (Hxy : x = y).
    { assert (Hin : In x (y :: l')) by (apply (Permutation_in _ Hp); now left).
      assert (Hin' : In y (x :: l))
        by (apply (Permutation_in _ (Permutation_sym Hp)); now left).
      destruct Hin as [-> | Hin]; [reflexivity|].
      destruct Hin' as [-> | Hin']; [reflexivity|].
      apply Hanti; [now left | now right | now apply Hx | now apply Hy]. }
    subst y. f_equal.
    apply IH; auto.
    + intros a b Ha Hb. apply Hanti; now right.
    + now apply Permutation_cons_inv in Hp.
Qed.

(** Taking an element out of the list takes it out of the sorted list and
    leaves the others where they are. *)
Lemma insert_here (key : A -> Z) (x : A) (l : list A) :
  exists a b, insert key x l = (a ++ x :: b)%list /\ l = (a ++ b)%list.
Proof.
  induction l as [|y l (a & b & H1 & H2)]; cbn [insert].
  - now exists [], [].
  - destruct (key x <=? key y).
    + now exists [], (y :: l).
    + exists (y :: a), b. cbn [app]. now rewrite H1, H2.
Qed.

Lemma insert_around (key : A -> Z) (y x : A) (a b : list A) :
  StronglySorted (fun u v => key u <= key v) (a ++ x :: b) ->
  exists a' b',
    insert key y (a ++ x :: b) = (a' ++ x :: b')%list
    /\ insert key y (a ++ b) = (a' ++ b')%list.
Proof.
  induction a as [|z a IH]; cbn [app insert]; intro Hs.
  - destruct (Z.leb_spec (key y) (key x)) as [Hle | Hgt].
    + exists [y], b. split; [reflexivity|].
      destruct b as [|z b]; [reflexivity|]. cbn [insert app].
      apply StronglySorted_inv in Hs as [_ Hx].
      rewrite Forall_forall in Hx. specialize (Hx z (or_introl eq_refl)).
      destruct (Z.leb_spec (key y) (key z)); [reflexivity | lia].
    + now exists [], (insert key y b).
  - destruct (key y <=? key z).
    + now exists (y :: z :: a), b.
    + apply StronglySorted_inv in Hs as [Hs _].
      destruct (IH Hs) as (a' & b' & H1 & H2).
      exists (z :: a'), b'. cbn [app]. now rewrite H1, H2.
Qed.

Lemma sorted_remove (key : A -> Z) (l1 l2 : list A) (x : A) :
  exists a b,
    sorted key (l1 ++ x :: l2) = (a ++ x :: b)%list
    /\ sorted key (l1 ++ l2) = (a ++ b)%list.
Proof.
  induction l1 as [|y l1 (a & b & H1 & H2)]; cbn [app sorted].
  - apply insert_here.
  - rewrite H1, H2. apply insert_around. rewrite <- H1. apply sorted_sorted.
Qed.

End Sorted.

Lemma insert_map {A B : Type} (f : A -> B) (key : B -> Z) (x : A) (l : list A) :
  map f (insert (fun a => key (f a)) x l) = insert key (f x) (map f l).
Proof.
  induction l as [|y l IH]; cbn [insert map]; [reflexivity|].
  destruct (key (f x) <=? key (f y))%Z; cbn [map]; [reflexivity | now rewrite IH].
Qed.

Lemma sorted_map {A B : Type} (f : A -> B) (key : B -> Z) (l : list A) :
  map f (sorted (fun a => key (f a)) l) = sorted key (map f l).
Proof.
  induction l as [|x l IH]; cbn [sorted map]; [reflexivity|].
  now rewrite insert_map, IH.
Qed.

(** ** The order of the fields *)

Lemma sort_key_spec (k : string) :
  match lookup k SORTED_FIELDS with
  | Some r => sort_key k = r /\ (1 <= r <= 20)%Z
  | None => sort_key k = 999%Z
  end.
Proof.
  unfold sort_key. destruct (lookup k SORTED_FIELDS) as [r|] eqn:E; [|reflexivity].
  apply lookup_In in E.
  assert (H : Forall (fun kr => (1 <= snd kr <= 20)%Z) SORTED_FIELDS)
    by (unfold SORTED_FIELDS; repeat constructor; cbn; lia).
  rewrite Forall_forall in H. specialize (H _ E). cbn [snd] in H.
  split; [|exact H].
  cbn [truthy]. destruct (Z.eqb_spec r 0); [lia | reflexivity].
Qed.

Lemma ranked_below (kv : string * json) :
  ranked kv = (field_rank kv <? 999)%Z.
Proof.
  unfold ranked, field_rank. pose proof (sort_key_spec (fst kv)) as H.
  destruct (lookup (fst kv) SORTED_FIELDS) as [r|].
  - destruct H as [-> H]. symmetry. apply Z.ltb_lt. lia.
  - now rewrite H.
Qed.

Lemma same_value_same_key {A B : Type} (d : list (A * B)) (k k' : A) (r : B) :
  NoDup (map snd d) -> In (k, r) d -> In (k', r) d -> k = k'.
Proof.
  induction d as [|[k0 r0] d IH]; cbn [map snd In]; intros Hnd H H'; [contradiction|].
  inversion Hnd as [|? ? Hr Hd]; subst.
  assert (Hfresh : forall x, In (x, r0) d -> False).
  { intros x Hx. apply Hr. change r0 with (snd (x, r0)). now apply in_map. }
  destruct H as [H | H], H' as [H' | H'].
  - congruence.
  - injection H as -> ->. now destruct (Hfresh k').
  - injection H' as -> ->. now destruct (Hfresh k).
  - now apply IH.
Qed.

(** No two ranked names share a rank. *)
Lemma sort_key_injective (k k' : string) (r r' : Z) :
  lookup k SORTED_FIELDS = Some r -> lookup k' SORTED_FIELDS = Some r' ->
  sort_key k = sort_key k' -> k = k'.
Proof.
  intros E E' H.
  pose proof (sort_key_spec k) as S. pose proof (sort_key_spec k') as S'.
  rewrite E in S. rewrite E' in S'. destruct S as [S _], S' as [S' _].
  assert (Hr : r' = r) by congruence. rewrite Hr in E'.
  apply lookup_In in E. apply lookup_In in E'.
  apply (same_value_same_key SORTED_FIELDS k k' r); [|exact E|exact E'].
  unfold SORTED_FIELDS. cbn [map snd].
  repeat constructor; cbn [In]; intuition discriminate.
Qed.

Lemma lookup_sort_keys (data : dict json) (k : string) :
  In k (keys data) -> lookup k (sort_keys data) = Some (sort_key k).
Proof.
  unfold sort_keys. induction (keys data) as [|k' l IH]; cbn [In map lookup].
  - contradiction.
  - intros [-> | H].
    + now rewrite String.eqb_refl.
    + destruct (String.eqb_spec k' k) as [->|_]; [reflexivity | now apply IH].
Qed.

Lemma flat_map_lookup (data l : dict json) :
  NoDup (keys data) -> incl l data ->
  flat_map (fun k => match lookup k data with Some v => [(k, v)] | None => [] end)
           (keys l)
  = l.
Proof.
  intros Hnd. induction l as [|[k v] l IH]; intro Hl; cbn [keys map flat_map fst].
  - reflexivity.
  - rewrite (In_lookup k v data Hnd) by (apply Hl; now left).
    cbn [app]. f_equal. apply IH. intros x Hx. apply Hl. now right.
Qed.

(** The dict comprehension of [get_weather] is the fields sorted by the
    rank of their names. *)
Lemma sorted_dict_fields (data : dict json) :
  NoDup (keys data) -> sorted_dict data = sorted field_rank data.
Proof.
  intro Hnd. unfold sorted_dict.
  rewrite (sorted_ext _ sort_key)
    by (intros k Hk; now rewrite (lookup_sort_keys data k Hk)).
  unfold keys. rewrite <- (sorted_map fst sort_key data).
  apply (flat_map_lookup data (sorted field_rank data) Hnd).
  intros x Hx. now apply sorted_In in Hx.
Qed.

Lemma same_key_same_field (data : dict json) (a b : string * json) :
  NoDup (keys data) -> In a data -> In b data -> fst a = fst b -> a = b.
Proof.
  intros Hnd Ha Hb Hk. destruct a as [k v], b as [k' v']. cbn [fst] in Hk. subst k'.
  apply (In_lookup _ _ _ Hnd) in Ha, Hb. congruence.
Qed.



Example sorted_dict_example :
  sorted_dict
    [("zeta", JOther); ("humidity", JOther); ("alpha", JOther); ("temp", JOther)]
  = [("temp", JOther); ("humidity", JOther); ("zeta", JOther); ("alpha", JOther)].
Proof. reflexivity. Qed.

(** ** Fields that are passed over *)

Lemma parse_data_continue {ext : Externals} (before after : dict json)
  (key : string) (m : value_map) (tz : string) :
  truthy (get (value m)) = false \/ py_eq (get (value m)) "none" = true ->
  _parse_data ((before ++ (key, JObject m) :: after)%list) tz
  = _parse_data ((before ++ after)%list) tz.
Proof.
  intro H. unfold _parse_data.
  now rewrite (parse_loop_continue before after key (JObject m) tz "" 0
                 (field_template_dropped key m tz H)).
Qed.

Lemma keys_remove (before after : dict json) (x : string * json) :
  NoDup (keys (before ++ x :: after)%list) -> NoDup (keys (before ++ after)%list).
Proof.
  unfold keys. rewrite !map_app. cbn [map]. apply NoDup_remove_1.
Qed.

(** The same in [get_weather], where the fields are sorted first. *)
Lemma get_weather_continue {ext : Externals} (before after : dict json)
  (key : string) (m : value_map) (b : bundle) :
  truthy (get (value m)) = false \/ py_eq (get (value m)) "none" = true ->
  NoDup (keys (before ++ (key, JObject m) :: after)%list) ->
  get_weather b ((before ++ (key, JObject m) :: after)%list)
  = get_weather b ((before ++ after)%list).
Proof.
  intros H Hnd. unfold get_weather.
  rewrite (sorted_dict_fields _ Hnd), (sorted_dict_fields _ (keys_remove _ _ _ Hnd)).
  destruct (sorted_remove field_rank before after (key, JObject m)) as (a & c & -> & ->).
  now rewrite (parse_data_continue a c key m (tz b) H).
Qed.

(** C7: a field with no [value], with a null value or with the value
    ["none"] leaves the output what it is without the field, whatever its
    key, its unit and its place in the response: in [_parse_data], and in
    [get_weather] for a response that has no key twice. *)
Theorem missing_null_none_dropped {ext : Externals} (before after : dict json)
  (key : string) (m : value_map) (tz : string) :
  value m = None \/ value m = Some VNone \/ value m = Some (VStr "none") ->
  _parse_data ((before ++ (key, JObject m) :: after)%list) tz
  = _parse_data ((before ++ after)%list) tz
  /\ (NoDup (keys (before ++ (key, JObject m) :: after)%list) ->
      forall b : bundle,
        get_weather b ((before ++ (key, JObject m) :: after)%list)
        = get_weather b ((before ++ after)%list)).
Proof.
  intro H.
  assert (Hd : truthy (get (value m)) = false \/ py_eq (get (value m)) "none" = true)
    by (destruct H as [-> | [-> | ->]]; cbn; auto).
  split.
  - now apply parse_data_continue.
  - intros Hnd b. now apply get_weather_continue.
Qed.

Lemma missing_null_none_dropped_witness :
  @_parse_data no_externals
    [("humidity", JObject (mk_value_map (Some (VInt 55)) (Some (VStr "%"))));
     ("visibility", JObject (mk_value_map (Some (VStr "none")) (Some (VStr "mi"))));
     ("cloud_cover", JObject (mk_value_map (Some (VInt 40)) (Some (VStr "%"))))] "UTC"
  = @_parse_data no_externals
      [("humidity", JObject (mk_value_map (Some (VInt 55)) (Some (VStr "%"))));
       ("cloud_cover", JObject (mk_value_map (Some (VInt 40)) (Some (VStr "%"))))] "UTC".
Proof.
  apply (@missing_null_none_dropped no_externals
           [("humidity", JObject (mk_value_map (Some (VInt 55)) (Some (VStr "%"))))]
           [("cloud_cover", JObject (mk_value_map (Some (VInt 40)) (Some (VStr "%"))))]
           "visibility" (mk_value_map (Some (VStr "none")) (Some (VStr "mi"))) "UTC").
  right. right. reflexivity.
Defined.

(** C10: so does a field whose value is falsy, as are the numbers 0 and
    0.0, the empty string and [False], although the value is there and is
    neither null nor ["none"]. *)
Theorem falsy_dropped {ext : Externals} (before after : dict json)
  (key : string) (m : value_map) (v : pyval) (tz : string) :
  value m = Some v ->
  v = VInt 0 \/ v = VFloat 0 \/ v = VStr "" \/ truthy v = false ->
  _parse_data ((before ++ (key, JObject m) :: after)%list) tz
  = _parse_data ((before ++ after)%list) tz
  /\ (NoDup (keys (before ++ (key, JObject m) :: after)%list) ->
      forall b : bundle,
        get_weather b ((before ++ (key, JObject m) :: after)%list)
        = get_weather b ((before ++ after)%list)).
Proof.
  intros Hv H.
  assert (Hd : truthy (get (value m)) = false \/ py_eq (get (value m)) "none" = true).
  { left. rewrite Hv. cbn [get]. destruct H as [-> | [-> | [-> | H]]]; auto. }
  split.
  - now apply parse_data_continue.
  - intros Hnd b. now apply get_weather_continue.
Qed.

Lemma falsy_dropped_witness :
  @_parse_data no_externals
    [("temp", JObject (mk_value_map (Some (VInt 0)) (Some (VStr "F"))));
     ("humidity", JObject (mk_value_map (Some (VInt 55)) (Some (VStr "%"))))] "UTC"
  = @_parse_data no_externals
      [("humidity", JObject (mk_value_map (Some (VInt 55)) (Some (VStr "%"))))] "UTC".
Proof.
  apply (@falsy_dropped no_externals []
           [("humidity", JObject (mk_value_map (Some (VInt 55)) (Some (VStr "%"))))]
           "temp" (mk_value_map (Some (VInt 0)) (Some (VStr "F"))) (VInt 0) "UTC" eq_refl).
  left. reflexivity.
Defined.

(** ** [split], [join] and [len] *)

Lemma length_app (a b : string) :
  String.length (a ++ b) = (String.length a + String.length b)%nat.
Proof. induction a as [|c a IH]; cbn; [reflexivity | now rewrite IH]. Qed.

Lemma prefix_app (p s : string) : prefix p s = true -> exists t, s = p ++ t.
Proof.
  revert s. induction p as [|c p IH]; intros s H; [now exists s|].
  destruct s as [|c' s]; [discriminate|]. cbn [prefix] in H.
  destruct (ascii_dec c c') as [<-|_]; [|discriminate].
  destruct (IH s H) as [t ->]. now exists t.
Qed.

(** Passing over what is left of a separator. *)
Lemma split_from_skip (sep p s cur : string) :
  split_from sep (String.length p) cur (p ++ s) = split_from sep 0 cur s.
Proof.
  induction p as [|c p IH]; [reflexivity | exact IH].
Qed.

Lemma split_from_nonempty (sep : string) (k : nat) (cur s : string) :
  split_from sep k cur s <> [].
Proof.
  revert k cur. induction s as [|c s IH]; intros k cur; cbn [split_from];
    [discriminate|].
  destruct k; [|apply IH]. destruct (prefix sep (String c s)); [discriminate | apply IH].
Qed.

Lemma join_cons (sep x : string) (l : list string) :
  l <> [] -> join sep (x :: l) = x ++ sep ++ join sep l.
Proof. destruct l; [congruence | reflexivity]. Qed.

Lemma join_split_from (sep : string) (n : nat) :
  sep <> "" ->
  forall s cur, (String.length s <= n)%nat ->
  join sep (split_from sep 0 cur s) = cur ++ s.
Proof.
  intro Hsep. induction n as [|n IH]; intros s cur Hlen.
  - destruct s; [|cbn in Hlen; lia]. cbn. now rewrite append_empty_r.
  - destruct s as [|c s]; [cbn; now rewrite append_empty_r|].
    cbn [String.length] in Hlen. cbn [split_from].
    destruct (prefix sep (String c s)) eqn:Hp.
    + apply prefix_app in Hp as [t Ht].
      destruct sep as [|c' sep]; [congruence|].
      cbn [append] in Ht. injection Ht as <- ->.
      replace (String.length (String c sep) - 1)%nat with (String.length sep)
        by (cbn [String.length]; lia).
      rewrite split_from_skip.
      rewrite join_cons by apply split_from_nonempty.
      rewrite IH by (rewrite length_app in Hlen; lia).
      reflexivity.
    + rewrite IH by lia. now rewrite append_assoc'.
Qed.

(** Joining the parts of a split gives the text back. *)
Lemma join_split (sep s : string) : sep <> "" -> join sep (split sep s) = s.
Proof.
  intro Hsep. unfold split.
  now rewrite (join_split_from sep (String.length s) Hsep s "" (Nat.le_refl _)).
Qed.

Lemma py_len_app (a b : string) : py_len (a ++ b) = (py_len a + py_len b)%nat.
Proof.
  induction a as [|c a IH]; cbn [append py_len]; [reflexivity|].
  destruct (continuation_byte c); now rewrite IH.
Qed.

Lemma continuation_byte_spec (c : ascii) :
  continuation_byte c = ((128 <=? N_of_ascii c) && (N_of_ascii c <? 192))%N.
Proof. reflexivity. Qed.

Section Repr.

Context {ext : Externals}.

Lemma py_len_repr_ascii (quote c : ascii) :
  (N_of_ascii c < 128)%N -> (1 <= py_len (repr_ascii quote c))%nat.
Proof.
  intro Hc. unfold repr_ascii.
  destruct ((c =? quote)%char || (c =? backslash)%char).
  - change (String backslash (String c "")) with ("\" ++ String c "").
    rewrite py_len_app. change (py_len "\") with 1%nat. lia.
  - destruct (N_of_ascii c =? 9)%N; [cbn; lia|].
    destruct (N_of_ascii c =? 10)%N; [cbn; lia|].
    destruct (N_of_ascii c =? 13)%N; [cbn; lia|].
    destruct ((N_of_ascii c <? 32) || (N_of_ascii c =? 127))%N eqn:E.
    + rewrite py_len_app. cbn. lia.
    + cbn [py_len]. rewrite continuation_byte_spec.
      apply orb_false_iff in E as [E _].
      destruct (N.leb_spec 128 (N_of_ascii c)); cbn [andb]; lia.
Qed.

Lemma py_len_repr_escape (cp : N) : (1 <= py_len (repr_escape cp))%nat.
Proof.
  unfold repr_escape.
  destruct (cp <=? 255)%N; [|destruct (cp <=? 65535)%N];
    rewrite py_len_app; cbn; lia.
Qed.

Lemma py_len_repr_body (quote : ascii) (keep : bool) (s : string) :
  (py_len s <= py_len (repr_body quote keep s))%nat.
Proof.
  revert keep. induction s as [|c s IH]; intro keep; [reflexivity|].
  cbn [repr_body py_len]. rewrite continuation_byte_spec.
  destruct (N.ltb_spec (N_of_ascii c) 128) as [H1 | H1].
  - destruct (N.leb_spec 128 (N_of_ascii c)); [lia|]. cbn [andb].
    rewrite py_len_app. pose proof (py_len_repr_ascii quote c H1).
    specialize (IH true). lia.
  - destruct (N.leb_spec 128 (N_of_ascii c)); [|lia]. cbn [andb].
    destruct (N.ltb_spec (N_of_ascii c) 192) as [H2 | H2].
    + destruct keep; cbn [py_len]; rewrite ?continuation_byte_spec.
      * destruct (N.leb_spec 128 (N_of_ascii c)); [|lia].
        destruct (N.ltb_spec (N_of_ascii c) 192); [|lia]. cbn [andb]. apply IH.
      * apply IH.
    + destruct (isprintable _).
      * cbn [py_len]. rewrite continuation_byte_spec.
        destruct (N.leb_spec 128 (N_of_ascii c)); [|lia].
        destruct (N.ltb_spec (N_of_ascii c) 192); [lia|]. cbn [andb].
        specialize (IH true). lia.
      * rewrite py_len_app. pose proof (py_len_repr_escape (code_point (N_of_ascii c) s)).
        specialize (IH false). lia.
Qed.

(** [repr] adds its two quotes at least. *)
Lemma py_len_repr (s : string) : (py_len s + 2 <= py_len (repr s))%nat.
Proof.
  unfold repr.
  set (quote := if contains squote s && negb (contains dquote s) then dquote else squote).
  assert (Hq : continuation_byte quote = false)
    by (unfold quote; destruct (contains squote s && negb (contains dquote s)); reflexivity).
  cbn [py_len]. rewrite Hq, py_len_app. cbn [py_len]. rewrite Hq.
  pose proof (py_len_repr_body quote true s). lia.
Qed.

(** C4, as amended: the reply is measured by [len(repr(reply))], the
    length of the quoted and escaped text, which exceeds the number of
    characters of the reply by two at least.  Above 475 two messages are
    said: the parts of the reply between its [" | "], cut after the first
    half of them rounded down and joined again, so that the parts are those
    of the reply, in order and unchanged; at 475 or below the reply is said
    as it is. *)
Theorem weather_say_split (reply : string) :
  let parts := split " | " reply in
  let div := (List.length parts / 2)%nat in
  join " | " parts = reply
  /\ (firstn div parts ++ skipn div parts)%list = parts
  /\ (List.length (firstn div parts) <= List.length (skipn div parts))%nat
  /\ (py_len reply + 2 <= py_len (repr reply))%nat
  /\ ((475 < py_len (repr reply))%nat ->
      weather_say reply
      = [join " | " (firstn div parts); join " | " (skipn div parts)])
  /\ ((py_len (repr reply) <= 475)%nat -> weather_say reply = [reply]).
Proof.
  intros parts div.
  split; [apply join_split; discriminate|].
  split; [apply firstn_skipn|].
  split.
  { rewrite length_firstn, length_skipn. subst div.
    pose proof (Nat.div_mod_eq (List.length parts) 2).
    pose proof (Nat.mod_upper_bound (List.length parts) 2). lia. }
  split; [apply py_len_repr|].
  unfold weather_say. split; intro H.
  - apply Nat.ltb_lt in H. now rewrite H.
  - destruct (Nat.ltb_spec 475 (py_len (repr reply))); [lia | reflexivity].
Qed.

End Repr.

Lemma weather_say_split_witness :
  @weather_say no_externals "a | b" = ["a | b"]
  /\ match sample_reply with
     | Ok reply =>
         @weather_say no_externals reply
         = [join " | " (firstn (List.length (split " | " reply) / 2) (split " | " reply));
            join " | " (skipn (List.length (split " | " reply) / 2) (split " | " reply))]
     | Raise _ => False
     end.
Proof.
  split.
  - apply (@weather_say_split no_externals "a | b").
    apply Nat.leb_le. vm_compute. reflexivity.
  - destruct sample_reply as [reply|e] eqn:E.
    + apply (@weather_say_split no_externals reply).
      apply Nat.ltb_lt. vm_compute in E. injection E as <-. vm_compute. reflexivity.
    + vm_compute in E. discriminate E.
Defined.

(** C4, as stated, fails below 475 characters: this reply has 400 of
    them, its [repr] has 480, and it is said in two messages. *)
Lemma reply_of_400_characters_split :
  match sample_reply with
  | Ok reply =>
      (py_len reply, py_len (@repr no_externals reply),
       List.length (@weather_say no_externals reply))
  | Raise _ => (0, 0, 0)%nat
  end
  = (400, 480, 2)%nat.
Proof. vm_compute. reflexivity. Qed.

(** * Further properties of the formatter *)

(** ** [get_wind] on every input *)

Local Open Scope Q_scope.

Lemma get_wind_label (bearing : pyval) (b : Q) :
  number bearing = Some b ->
  exists label,
    get_wind bearing = Ok (VStr label)
    /\ In label ["↓ N"; "↙ NE"; "← E"; "↖ SE"; "↑ S"; "↗ SW"; "→ W"; "↘ NW"].
Proof.
  intro Hn. unfold get_wind, gt. rewrite Hn.
  destruct (le b 22.5) eqn:E0; [eexists; split; [reflexivity | cbn; tauto]|].
  destruct (lt 337.5 b) eqn:E8; [eexists; split; [reflexivity | cbn; tauto]|].
  cbn [orb]. order_facts.
  assert (T : lt 22.5 b = true) by (apply lt_iff; exact E0). rewrite T. cbn [andb].
  destruct (le b 67.5) eqn:E1; [eexists; split; [reflexivity | cbn; tauto]|].
  order_facts.
  assert (T1 : lt 67.5 b = true) by (apply lt_iff; exact E1). rewrite T1. cbn [andb].
  destruct (le b 112.5) eqn:E2; [eexists; split; [reflexivity | cbn; tauto]|].
  order_facts.
  assert (T2 : lt 112.5 b = true) by (apply lt_iff; exact E2). rewrite T2. cbn [andb].
  destruct (le b 157.5) eqn:E3; [eexists; split; [reflexivity | cbn; tauto]|].
  order_facts.
  assert (T3 : lt 157.5 b = true) by (apply lt_iff; exact E3). rewrite T3. cbn [andb].
  destruct (le b 202.5) eqn:E4; [eexists; split; [reflexivity | cbn; tauto]|].
  order_facts.
  assert (T4 : lt 202.5 b = true) by (apply lt_iff; exact E4). rewrite T4. cbn [andb].
  destruct (le b 247.5) eqn:E5; [eexists; split; [reflexivity | cbn; tauto]|].
  order_facts.
  assert (T5 : lt 247.5 b = true) by (apply lt_iff; exact E5). rewrite T5. cbn [andb].
  destruct (le b 292.5) eqn:E6; [eexists; split; [reflexivity | cbn; tauto]|].
  order_facts.
  assert (T6 : lt 292.5 b = true) by (apply lt_iff; exact E6). rewrite T6. cbn [andb].
  assert (T7 : le b 337.5 = true) by (apply le_iff; exact E8). rewrite T7.
  eexists; split; [reflexivity | cbn; tauto].
Qed.

Local Close Scope Q_scope.

(** X1: the eight sectors of [get_wind] leave no gap: every finite
    number, whatever its sign and size, an [int] and a [bool] among them,
    gets one of the eight compass texts, so that the last line of the
    function, [return bearing], is reached by no finite number; [None] and a
    text raise [TypeError]. *)
Theorem get_wind_compass (bearing : pyval) :
  (forall b : Q,
      number bearing = Some b ->
      exists label,
        get_wind bearing = Ok (VStr label)
        /\ In label ["↓ N"; "↙ NE"; "← E"; "↖ SE"; "↑ S"; "↗ SW"; "→ W"; "↘ NW"])
  /\ (bearing = VNone \/ (exists s, bearing = VStr s) ->
      get_wind bearing = Raise TypeError).
Proof.
  split.
  - intros b Hn. now apply (get_wind_label bearing b).
  - intros [-> | [s ->]]; reflexivity.
Qed.

Lemma get_wind_compass_witness :
  (exists label,
      get_wind (VFloat (-725 # 10)) = Ok (VStr label)
      /\ In label ["↓ N"; "↙ NE"; "← E"; "↖ SE"; "↑ S"; "↗ SW"; "→ W"; "↘ NW"])
  /\ get_wind (VStr "north") = Raise TypeError.
Proof.
  split.
  - apply (proj1 (get_wind_compass (VFloat (-725 # 10))) (-725 # 10)%Q).
    reflexivity.
  - apply (proj2 (get_wind_compass (VStr "north"))). right. now exists "north".
Defined.

(** ** [wind_direction] in the loop *)

Section Wind.

Context {ext : Externals}.

(** The iteration for [wind_direction] up to the call of [get_wind]. *)
Lemma field_template_wind (m : value_map) (v : pyval) (tz : string) :
  value m = Some v -> truthy v = true -> py_eq v "none" = false ->
  py_eq (get (units m)) "F" = false -> py_eq (get (units m)) "C" = false ->
  field_template "wind_direction" (JObject m) tz
  = (w <- get_wind v ;;
     Ok (Some (safe_substitute
                 (mk_value_map (Some (formatted w "wind_direction")) None)))).
Proof.
  intros Hv Ht Hn HF HC. unfold field_template.
  change (member "wind_direction" ["lat"; "lon"; "observation_time"]) with false.
  change ("wind_direction" =? "weather_code") with false.
  change ("wind_direction" =? "wind_direction") with true.
  change (member "wind_direction" ["sunrise"; "sunset"]) with false.
  cbv iota. rewrite Hv. cbn [get]. rewrite Ht, Hn. cbn [negb orb bind].
  assert (Hunits :
            (if truthy (get (units m))
             then u <- item (units m) ;;
                  (if py_eq u "F"
                   then v0 <- item (value m) ;;
                        t <- fahrenheit_text v0 ;; Ok (mk_value_map (Some (VStr t)) None)
                   else if py_eq u "C"
                        then v0 <- item (value m) ;;
                             t <- celsius_text v0 ;; Ok (mk_value_map (Some (VStr t)) None)
                        else Ok m)
             else Ok m) = Ok m).
  { destruct (units m) as [u|]; cbn [get] in *; [|reflexivity].
    destruct (truthy u); [|reflexivity]. cbn [item bind]. now rewrite HF, HC. }
  rewrite Hunits. cbn [bind]. rewrite ?Hv. cbn [item bind].
  destruct (get_wind v) as [w|e]; reflexivity.
Qed.

End Wind.

Lemma compass_plain (label : string) :
  In label ["↓ N"; "↙ NE"; "← E"; "↖ SE"; "↑ S"; "↗ SW"; "→ W"; "↘ NW"] ->
  plain label = true.
Proof.
  cbn [In]. intros H.
  repeat (destruct H as [<- | H]; [reflexivity|]). contradiction.
Qed.

(** X2: a field [wind_direction] with a number that is not dropped as
    falsy is rendered as its label and the compass text of the number, and
    its unit, unlike that of other fields, is left out. *)
Theorem wind_direction_rendered {ext : Externals} (m : value_map) (v : pyval)
  (b : Q) (tz : string) :
  value m = Some v -> number v = Some b -> truthy v = true ->
  py_eq (get (units m)) "F" = false -> py_eq (get (units m)) "C" = false ->
  exists label,
    get_wind v = Ok (VStr label)
    /\ _parse_data [("wind_direction", JObject m)] tz
       = Ok (bold "Wind Direction:" ++ " " ++ label).
Proof.
  intros Hv Hb Ht HF HC.
  destruct (get_wind_label v b Hb) as (label & Hw & Hin).
  exists label. split; [exact Hw|].
  apply (parse_data_single_marker "wind_direction" _ tz label);
    [|now apply compass_plain].
  rewrite (field_template_wind m v tz Hv Ht); auto.
  - now rewrite Hw.
  - destruct v; try discriminate; reflexivity.
Qed.

Lemma wind_direction_rendered_witness :
  @_parse_data no_externals
    [("wind_direction",
      JObject (mk_value_map (Some (VInt 180)) (Some (VStr "degrees"))))] "UTC"
  = Ok (bold "Wind Direction:" ++ " " ++ "↑ S").
Proof.
  destruct (@wind_direction_rendered no_externals
              (mk_value_map (Some (VInt 180)) (Some (VStr "degrees")))
              (VInt 180) (inject_Z 180) "UTC" eq_refl eq_refl eq_refl eq_refl eq_refl)
    as (label & Hw & H).
  vm_compute in Hw. injection Hw as <-. exact H.
Defined.

(** ** Exceptions that the loop does not catch *)

Lemma parse_data_raise {ext : Externals} (before after : dict json)
  (key : string) (values : json) (tz : string) (e : exception) :
  field_template key values tz = Raise e ->
  _parse_data [(key, values)] tz = Raise e
  /\ exists e', _parse_data ((before ++ (key, values) :: after)%list) tz = Raise e'.
Proof.
  intro H. split.
  - unfold _parse_data. cbn [parse_loop]. now rewrite H.
  - destruct (parse_loop_raise before after key values tz "" 0 e H) as [e' He].
    exists e'. unfold _parse_data. now rewrite He.
Qed.

(** X3: a text where a number is expected is not passed over: a field
    [wind_direction] whose value is a string, and any field of its own key
    with the unit [F] whose value is a string, make [_parse_data] raise
    [TypeError], wherever the field stands. *)
Theorem text_for_a_number_raises {ext : Externals} (before after : dict json)
  (key : string) (m : value_map) (s tz : string) :
  value m = Some (VStr s) -> s <> "" -> s <> "none" ->
  (key = "wind_direction"
   /\ py_eq (get (units m)) "F" = false /\ py_eq (get (units m)) "C" = false)
  \/ (member key ["lat"; "lon"; "observation_time"; "weather_code"] = false
      /\ units m = Some (VStr "F")) ->
  _parse_data [(key, JObject m)] tz = Raise TypeError
  /\ exists e, _parse_data ((before ++ (key, JObject m) :: after)%list) tz = Raise e.
Proof.
  intros Hv Hs Hn Hcase. apply parse_data_raise.
  assert (Ht : truthy (VStr s) = true)
    by (cbn; now destruct (String.eqb_spec s "")).
  assert (Hnone : py_eq (VStr s) "none" = false)
    by (cbn; now destruct (String.eqb_spec s "none")).
  destruct Hcase as [(-> & HF & HC) | (Hk & Hu)].
  - now rewrite (field_template_wind m (VStr s) tz Hv Ht Hnone HF HC).
  - unfold field_template.
    unfold member in Hk. cbn [existsb] in Hk.
    apply orb_false_iff in Hk as [K1 Hk]. apply orb_false_iff in Hk as [K2 Hk].
    apply orb_false_iff in Hk as [K3 Hk]. apply orb_false_iff in Hk as [K4 _].
    unfold member. cbn [existsb]. rewrite K1, K2, K3, K4. cbn [orb].
    rewrite Hv. cbn [get]. rewrite Ht, Hnone. cbn [negb orb bind].
    rewrite Hu. cbn [get truthy String.eqb negb item bind py_eq].
    change ("F" =? "")%string with false. change ("F" =? "F")%string with true.
    cbn [negb]. rewrite Hv. reflexivity.
Qed.

Lemma text_for_a_number_raises_witness :
  @_parse_data no_externals
    [("temp", JObject (mk_value_map (Some (VStr "72")) (Some (VStr "F"))))] "UTC"
  = Raise TypeError.
Proof.
  apply (@text_for_a_number_raises no_externals [] [] "temp"
           (mk_value_map (Some (VStr "72")) (Some (VStr "F"))) "72" "UTC" eq_refl).
  - discriminate.
  - discriminate.
  - right. split; reflexivity.
Defined.

(** ** Keys that are passed over, and values that are no objects *)

Lemma field_template_coordinates {ext : Externals} (key : string) (values : json)
  (tz : string) :
  In key ["lat"; "lon"; "observation_time"] -> field_template key values tz = Ok None.
Proof.
  cbn [In]. intros [<- | [<- | [<- | []]]]; reflexivity.
Qed.

(** X4: the keys [lat], [lon] and [observation_time] add nothing to the
    report, whatever JSON value they hold, an object or not: in
    [_parse_data], and in [get_weather] for a response with no key twice. *)
Theorem coordinates_passed_over {ext : Externals} (before after : dict json)
  (key : string) (values : json) (zone : string) :
  In key ["lat"; "lon"; "observation_time"] ->
  _parse_data ((before ++ (key, values) :: after)%list) zone
  = _parse_data ((before ++ after)%list) zone
  /\ (NoDup (keys (before ++ (key, values) :: after)%list) ->
      forall b : bundle,
        get_weather b ((before ++ (key, values) :: after)%list)
        = get_weather b ((before ++ after)%list)).
Proof.
  intro Hk. pose proof (field_template_coordinates key values zone Hk) as Hf.
  assert (Hloop : forall l1 l2,
             _parse_data ((l1 ++ (key, values) :: l2)%list) zone
             = _parse_data ((l1 ++ l2)%list) zone).
  { intros l1 l2. unfold _parse_data.
    now rewrite (parse_loop_continue l1 l2 key values zone "" 0 Hf). }
  split; [apply Hloop|].
  intros Hnd b. unfold get_weather.
  rewrite (sorted_dict_fields _ Hnd), (sorted_dict_fields _ (keys_remove _ _ _ Hnd)).
  destruct (sorted_remove field_rank before after (key, values)) as (a & c & -> & ->).
  assert (Hf' : field_template key values (tz b) = Ok None)
    by now apply field_template_coordinates.
  unfold _parse_data.
  now rewrite (parse_loop_continue a c key values (tz b) "" 0 Hf').
Qed.

Lemma coordinates_passed_over_witness :
  @_parse_data no_externals
    [("lat", JObject (mk_value_map (Some (VFloat 47.6)) (Some (VStr "degrees"))));
     ("observation_time", JOther);
     ("humidity", JObject (mk_value_map (Some (VInt 55)) (Some (VStr "%"))))] "UTC"
  = @_parse_data no_externals
      [("lat", JObject (mk_value_map (Some (VFloat 47.6)) (Some (VStr "degrees"))));
       ("humidity", JObject (mk_value_map (Some (VInt 55)) (Some (VStr "%"))))] "UTC".
Proof.
  apply (@coordinates_passed_over no_externals
           [("lat", JObject (mk_value_map (Some (VFloat 47.6)) (Some (VStr "degrees"))))]
           [("humidity", JObject (mk_value_map (Some (VInt 55)) (Some (VStr "%"))))]
           "observation_time" JOther "UTC").
  cbn [In]. tauto.
Defined.

(** X5: under any other key, a value that is no JSON object (a number, a
    text, an array: what an error response carries) makes [_parse_data]
    raise [AttributeError], wherever the field stands. *)
Theorem not_an_object_raises {ext : Externals} (before after : dict json)
  (key tz : string) :
  member key ["lat"; "lon"; "observation_time"] = false ->
  _parse_data [(key, JOther)] tz = Raise AttributeError
  /\ exists e, _parse_data ((before ++ (key, JOther) :: after)%list) tz = Raise e.
Proof.
  intro Hk. apply parse_data_raise. unfold field_template. now rewrite Hk.
Qed.

Lemma not_an_object_raises_witness :
  @_parse_data no_externals [("message", JOther)] "UTC" = Raise AttributeError.
Proof.
  apply (@not_an_object_raises no_externals [] [] "message" "UTC"). reflexivity.
Defined.

(** ** The report as a whole *)

Section Report.

Context {ext : Externals}.

Lemma parse_loop_all_continue (items : dict json) (tz string : String.string)
  (idx : nat) :
  Forall (fun kv => field_template (fst kv) (snd kv) tz = Ok None) items ->
  parse_loop items tz string idx = Ok string.
Proof.
  induction 1 as [|[k v] items H _ IH]; cbn [parse_loop]; [reflexivity|].
  cbn [fst snd] in H. now rewrite H.
Qed.

Lemma field_template_shape (key : string) (values : json) (tz template : string) :
  field_template key values tz = Ok (Some template) ->
  exists text, template = "{pfx}{field} " ++ text.
Proof.
  unfold field_template.
  destruct (member key _); [discriminate|].
  destruct values as [m|]; [|discriminate].
  destruct (negb _ || _); [discriminate|].
  repeat match goal with
         | |- bind ?c _ = _ -> _ => destruct c; cbn [bind]; [|discriminate]
         end.
  intro H. injection H as <-. unfold safe_substitute. eexists. reflexivity.
Qed.

End Report.

Lemma sorted_dict_incl (data : dict json) (kv : string * json) :
  In kv (sorted_dict data) -> In kv data.
Proof.
  unfold sorted_dict. rewrite in_flat_map. intros (k & _ & H).
  destruct (lookup k data) as [v|] eqn:E; [|contradiction].
  destruct H as [<- | []]. now apply lookup_In.
Qed.

Lemma passed_over_continue {ext : Externals} (kv : string * json) (tz : string) :
  passed_over kv -> field_template (fst kv) (snd kv) tz = Ok None.
Proof.
  destruct kv as [k v]. unfold passed_over. cbn [fst snd]. intros [H | (m & -> & H)].
  - now apply field_template_coordinates.
  - now apply field_template_dropped.
Qed.

(** X6: when every field of the response is passed over, and so when the
    response is empty, the report is the empty text and nothing is raised;
    the reply is then the location and the attribution, two spaces apart. *)
Theorem nothing_to_report {ext : Externals} (data : dict json) (b : bundle) :
  Forall passed_over data ->
  _parse_data data (tz b) = Ok ""
  /\ get_weather b data
     = Ok (bold ("[" ++ location b ++ "]")
           ++ "  | Powered by ClimaCell API (https://www.climacell.co/weather-api)").
Proof.
  intro H.
  assert (Hall : forall d, Forall passed_over d -> _parse_data d (tz b) = Ok "").
  { intros d Hd. unfold _parse_data. rewrite parse_loop_all_continue; [reflexivity|].
    eapply Forall_impl; [|exact Hd]. intros kv. apply passed_over_continue. }
  split; [now apply Hall|].
  unfold get_weather. rewrite Hall; [reflexivity|].
  rewrite Forall_forall in *. intros kv Hkv. apply H. now apply sorted_dict_incl.
Qed.

Lemma nothing_to_report_witness :
  @get_weather no_externals (mk_bundle "Boston, MA, USA" "America/New_York")
    [("lat", JOther); ("lon", JOther);
     ("humidity", JObject (mk_value_map (Some (VInt 0)) (Some (VStr "%"))))]
  = Ok (bold "[Boston, MA, USA]"
        ++ "  | Powered by ClimaCell API (https://www.climacell.co/weather-api)").
Proof.
  apply (@nothing_to_report no_externals
           [("lat", JOther); ("lon", JOther);
            ("humidity", JObject (mk_value_map (Some (VInt 0)) (Some (VStr "%"))))]
           (mk_bundle "Boston, MA, USA" "America/New_York")).
  apply Forall_cons; [left; cbn; tauto|].
  apply Forall_cons; [left; cbn; tauto|].
  apply Forall_cons; [|apply Forall_nil].
  right. eexists. split; [reflexivity|]. left. reflexivity.
Defined.

Section Joined.

Context {ext : Externals}.

Lemma parse_loop_segments (items : dict json) (tz : string) :
  (forall key values text,
      In (key, values) items ->
      field_template key values tz = Ok (Some ("{pfx}{field} " ++ text)) ->
      has_brace text = false) ->
  forall (string : String.string) (idx : nat),
    parse_loop items tz string idx
    = (l <- segments items tz ;;
       Ok (string ++ match l with
                     | [] => ""
                     | _ :: _ => (if (idx =? 0)%nat then "" else " | ") ++ join " | " l
                     end)).
Proof.
  induction items as [|[k v] items IH]; intros Hplain string idx;
    cbn [parse_loop segments bind].
  - now rewrite append_empty_r.
  - assert (Hrest : forall key values text,
               In (key, values) items ->
               field_template key values tz = Ok (Some ("{pfx}{field} " ++ text)) ->
               has_brace text = false)
      by (intros key values text Hin; apply Hplain; now right).
    destruct (field_template k v tz) as [[t|]|e] eqn:E; cbn [bind];
      [| now apply IH | reflexivity].
    destruct (field_template_shape k v tz t E) as [text ->].
    pose proof (Hplain k v text (or_introl eq_refl) E) as Hb.
    rewrite !format_plain by exact Hb. cbn [bind].
    rewrite (IH Hrest). destruct (segments items tz) as [l|e]; cbn [bind]; [|reflexivity].
    f_equal. cbn [Nat.eqb].
    change ("" ++ get_or MAPPED_FIELDS k "" ++ " " ++ text)
      with (get_or MAPPED_FIELDS k "" ++ " " ++ text).
    set (s := get_or MAPPED_FIELDS k "" ++ " " ++ text).
    set (pfx := if (idx =? 0)%nat then "" else " | ").
    destruct l as [|s' l].
    + unfold join. cbn [concat]. now rewrite append_empty_r.
    + rewrite (join_cons " | " s (s' :: l)) by discriminate.
      now rewrite !append_assoc'.
Qed.

End Joined.

(** X7: the report is the texts of the fields that are not passed over,
    joined by [" | "], with the marker [$units] then taken out: the
    separator stands between two such fields only, whatever fields are passed
    over before, between or after them.  For fields whose text holds no
    brace. *)
Theorem report_joined {ext : Externals} (items : dict json) (tz : string) :
  (forall key values text,
      In (key, values) items ->
      field_template key values tz = Ok (Some ("{pfx}{field} " ++ text)) ->
      has_brace text = false) ->
  _parse_data items tz
  = (l <- segments items tz ;; Ok (replace "$units" "" (join " | " l))).
Proof.
  intro H. unfold _parse_data. rewrite (parse_loop_segments items tz H "" 0).
  destruct (segments items tz) as [[|s l]|e]; reflexivity.
Qed.

Lemma report_joined_witness :
  @_parse_data no_externals
    [("lat", JOther);
     ("humidity", JObject (mk_value_map (Some (VInt 55)) (Some (VStr "%"))));
     ("visibility", JObject (mk_value_map None (Some (VStr "mi"))));
     ("epa_health_concern", JObject (mk_value_map (Some (VStr "Good")) None))] "UTC"
  = Ok (replace "$units" ""
          (join " | " [bold "Humidity:" ++ " 55%";
                       bold "Air Quality:" ++ " Good$units"])).
Proof.
  rewrite (@report_joined no_externals); [reflexivity|].
  intros key values text Hin. cbn [In] in Hin.
  destruct Hin as [H | [H | [H | [H | []]]]]; injection H as <- <-;
    vm_compute; intro E; try discriminate E; injection E as <-; reflexivity.
Defined.

(** ** Numbers rounded to integers *)

(** X8: the fields formatted by [round_int] show an integer as it is and
    a float as the nearest integer, at most one half away from it, the even
    one of the two when the float is half-way between them. *)
Theorem round_int_nearest {ext : Externals} :
  (forall z : Z, round_int (VInt z) = Ok (str_int z))
  /\ (forall q : Q,
        exists z : Z,
          round_int (VFloat q) = Ok (str_int z)
          /\ (inject_Z z - (1 # 2) <= q <= inject_Z z + (1 # 2))%Q
          /\ ((q == inject_Z z + (1 # 2) \/ q == inject_Z z - (1 # 2))%Q ->
              Z.even z = true))
  /\ (forall field,
        In field ["humidity"; "wind_speed"; "wind_gust"; "visibility";
                  "surface_shortwave_radiation"] ->
        forall v, _get_value_format v field = round_int v).
Proof.
  split; [reflexivity|]. split.
  - intro q. exists (round_half_even q). split; [reflexivity|].
    destruct (round_half_even_spec q) as [Hnear Heven].
    destruct q as [n d]. cbn [Qnum Qden] in *.
    set (z := round_half_even (n # d)) in *.
    unfold Qle, Qeq, Qminus, Qplus, Qopp, inject_Z. cbn [Qnum Qden].
    rewrite !Pos2Z.inj_mul.
    split; [split; nia|].
    intros [H | H]; apply Heven; [left | right]; nia.
  - intros field Hin v. cbn [In] in Hin.
    repeat (destruct Hin as [<- | Hin]; [reflexivity|]). contradiction.
Qed.

Lemma round_int_nearest_witness :
  @_get_value_format no_externals (VFloat (5 # 2)) "humidity" = Ok "2"
  /\ @_get_value_format no_externals (VFloat (7 # 2)) "wind_gust" = Ok "4".
Proof.
  destruct (@round_int_nearest no_externals) as (_ & _ & H).
  split; (rewrite H; [reflexivity | cbn [In]; tauto]).
Defined.

(** ** Exceptions of [_get_value_format] *)

(** X9: an exception raised by [_get_value_format], whichever it is, is
    passed over and the value is rendered by [str]; so is a humidity given as
    a text, for which [round] raises [TypeError]. *)
Theorem format_error_passed_over {ext : Externals} (key : string) (v : pyval)
  (e : exception) (tz : string) :
  member key own_branch = false ->
  truthy v = true -> py_eq v "none" = false -> plain (str v) = true ->
  _get_value_format v key = Raise e ->
  _parse_data [(key, JObject (mk_value_map (Some v) None))] tz
  = Ok (get_or MAPPED_FIELDS key "" ++ " " ++ str v).
Proof.
  intros Hk Ht Hn Hp He.
  apply (parse_data_single_marker key _ tz (str v)); [|exact Hp].
  rewrite (field_template_plain key (mk_value_map (Some v) None) v tz
             Hk eq_refl Ht Hn eq_refl eq_refl).
  cbn [units].
  unfold formatted. now rewrite He.
Qed.

Lemma format_error_passed_over_witness :
  @_parse_data no_externals
    [("humidity", JObject (mk_value_map (Some (VStr "n/a")) None))] "UTC"
  = Ok (bold "Humidity:" ++ " " ++ "n/a").
Proof.
  apply (@format_error_passed_over no_externals "humidity" (VStr "n/a") TypeError "UTC");
    reflexivity.
Defined.

(** ** The parts of a reply *)

Lemma prefix_self (p s : string) : prefix p (p ++ s) = true.
Proof.
  induction p as [|c p IH]; cbn [append prefix]; [now destruct s|].
  destruct (ascii_dec c c) as [_|N]; [exact IH | now destruct N].
Qed.

Lemma split_from_two (sep a b cur : string) :
  sep <> "" -> (2 <= List.length (split_from sep 0 cur (a ++ sep ++ b)))%nat.
Proof.
  intro Hsep.
  assert (Hcons : forall x l, l <> [] -> (2 <= List.length (x :: l : list string))%nat)
    by (intros x [|y l] H; [congruence | cbn; lia]).
  revert cur. induction a as [|c a IH]; intro cur; cbn [append].
  - destruct sep as [|c sep]; [congruence|]. cbn [append split_from].
    change (String c (sep ++ b)) with (String c sep ++ b).
    rewrite prefix_self. apply Hcons, split_from_nonempty.
  - cbn [split_from]. destruct (prefix sep (String c (a ++ sep ++ b))).
    + apply Hcons, split_from_nonempty.
    + apply IH.
Qed.

(** X10: a reply of [get_weather] always has two parts at least, the
    attribution being set off by [" | "]; so when [weather] cuts it, each of
    the two messages gets one part at least. *)
Theorem reply_two_parts {ext : Externals} (b : bundle) (data : dict json)
  (reply : string) :
  get_weather b data = Ok reply ->
  let parts := split " | " reply in
  let div := (List.length parts / 2)%nat in
  (2 <= List.length parts)%nat
  /\ (1 <= List.length (firstn div parts))%nat
  /\ (1 <= List.length (skipn div parts))%nat.
Proof.
  intros H parts div.
  assert (Hparts : (2 <= List.length parts)%nat).
  { unfold get_weather in H.
    destruct (_parse_data (sorted_dict data) (tz b)) as [p|e]; [|discriminate].
    cbn [bind] in H. cbv zeta in H.
    set (header := bold ("[" ++ location b ++ "]")) in H.
    assert (E : reply
                = (header ++ " " ++ p) ++ " | "
                  ++ "Powered by ClimaCell API (https://www.climacell.co/weather-api)").
    { apply (f_equal (fun r => match r with Ok x => x | Raise _ => "" end)) in H.
      cbv beta iota in H. rewrite <- H. now rewrite !append_assoc'. }
    subst parts. rewrite E. unfold split.
    apply split_from_two. discriminate. }
  split; [exact Hparts|].
  rewrite length_firstn, length_skipn. subst div.
  pose proof (Nat.div_mod_eq (List.length parts) 2).
  pose proof (Nat.mod_upper_bound (List.length parts) 2). lia.
Qed.

Lemma reply_two_parts_witness :
  match sample_reply with
  | Ok reply => (2 <= List.length (split " | " reply))%nat
  | Raise _ => False
  end.
Proof.
  destruct sample_reply as [reply|e] eqn:E.
  - apply (@reply_two_parts no_externals
             (mk_bundle "1600 Pennsylvania Avenue NW, Washington, DC 20500, USA"
                "America/New_York")
             sample_response reply E).
  - vm_compute in E. discriminate E.
Defined.

(** Texts with no bar in them are the parts of their join. *)
Lemma prefix_bar_false (c : ascii) (s : string) :
  contains "|" s = false ->
  (forall t, s <> String "|" t) ->
  prefix " | " (String c s) = false.
Proof.
  intros Hs Hhead. destruct (prefix " | " (String c s)) eqn:E; [|reflexivity].
  apply prefix_app in E as [t Ht]. cbn [append] in Ht. injection Ht as _ ->.
  now destruct (Hhead (String " " t)).
Qed.

Lemma split_from_text (x cur : string) :
  contains "|" x = false -> split_from " | " 0 cur x = [cur ++ x].
Proof.
  revert cur. induction x as [|c x IH]; intros cur H; cbn [split_from].
  - now rewrite append_empty_r.
  - cbn [contains] in H. apply orb_false_iff in H as [Hc Hx].
    rewrite prefix_bar_false; [|exact Hx|].
    + rewrite (IH _ Hx). now rewrite append_assoc'.
    + intros t ->. cbn in Hx. discriminate.
Qed.

Lemma split_from_text_sep (x cur rest : string) :
  contains "|" x = false ->
  split_from " | " 0 cur (x ++ " | " ++ rest)
  = (cur ++ x) :: split_from " | " 0 "" rest.
Proof.
  revert cur. induction x as [|c x IH]; intros cur H.
  - cbn. rewrite append_empty_r. now destruct rest.
  - cbn [contains] in H. apply orb_false_iff in H as [Hc Hx].
    change (String c x ++ " | " ++ rest) with (String c (x ++ " | " ++ rest)).
    assert (Hp : prefix " | " (String c (x ++ " | " ++ rest)) = false).
    { destruct (prefix " | " (String c (x ++ " | " ++ rest))) eqn:E; [|reflexivity].
      apply prefix_app in E as [t Ht]. cbn [append] in Ht. injection Ht as _ Ht.
      destruct x as [|c' x]; cbn [append] in Ht; [discriminate|].
      injection Ht as -> _. cbn in Hx. discriminate. }
    cbn [split_from]. rewrite Hp, (IH _ Hx). now rewrite append_assoc'.
Qed.

Lemma split_join (l : list string) :
  l <> [] -> Forall (fun x => contains "|" x = false) l ->
  split " | " (join " | " l) = l.
Proof.
  unfold split. induction l as [|x l IH]; intros Hne Hall; [congruence|].
  inversion Hall as [|? ? Hx Hl]; subst.
  destruct l as [|y l].
  - cbn. now apply split_from_text.
  - rewrite (join_cons " | " x (y :: l)) by discriminate.
    rewrite split_from_text_sep by exact Hx. cbn [append]. f_equal.
    apply IH; [discriminate | exact Hl].
Qed.

Lemma join_head (sep a x : string) (l : list string) :
  join sep ((a ++ x) :: l) = a ++ join sep (x :: l).
Proof.
  destruct l as [|y l]; [reflexivity|].
  rewrite !join_cons by discriminate. apply append_assoc'.
Qed.

Lemma join_last (sep x : string) (l : list string) :
  l <> [] -> join sep l ++ sep ++ x = join sep ((l ++ [x])%list).
Proof.
  induction l as [|y l IH]; intro Hne; [congruence|].
  destruct l as [|z l].
  - reflexivity.
  - rewrite (join_cons sep y (z :: l)) by discriminate. cbn [app].
    rewrite (join_cons sep y (z :: (l ++ [x])%list)) by discriminate.
    rewrite !append_assoc'. do 2 f_equal. apply IH. discriminate.
Qed.

(** X11: when the location and the texts of the fields hold no bar, the
    parts into which [weather] cuts a reply are the location with the first
    field, the other fields one by one, and the attribution. *)
Theorem parts_of_reply {ext : Externals} (b : bundle) (data : dict json)
  (texts : list string) :
  contains "|" (location b) = false ->
  Forall (fun x => contains "|" x = false) texts ->
  _parse_data (sorted_dict data) (tz b) = Ok (join " | " texts) ->
  exists reply,
    get_weather b data = Ok reply
    /\ split " | " reply
       = match texts with
         | [] =>
             [bold ("[" ++ location b ++ "]") ++ " ";
              "Powered by ClimaCell API (https://www.climacell.co/weather-api)"]
         | first :: others =>
             (bold ("[" ++ location b ++ "]") ++ " " ++ first)
             :: (others
                 ++ ["Powered by ClimaCell API (https://www.climacell.co/weather-api)"])%list
         end.
Proof.
  intros Hloc Htexts Hparse. unfold get_weather. rewrite Hparse. cbn [bind].
  eexists. split; [reflexivity|].
  change (" | Powered by ClimaCell API (https://www.climacell.co/weather-api)")
    with (" | " ++ "Powered by ClimaCell API (https://www.climacell.co/weather-api)").
  set (header := bold ("[" ++ location b ++ "]")).
  set (credit := "Powered by ClimaCell API (https://www.climacell.co/weather-api)").
  assert (Hheader : contains "|" header = false).
  { unfold header, bold. rewrite !contains_app, Hloc. reflexivity. }
  destruct texts as [|first others].
  - change (join " | " []) with "".
    change (header ++ " " ++ "" ++ " | " ++ credit)
      with (header ++ " " ++ " | " ++ credit).
    rewrite <- (append_assoc' header " " (" | " ++ credit)).
    change ((header ++ " ") ++ " | " ++ credit)
      with (join " | " [header ++ " "; credit]).
    apply split_join; [discriminate|].
    apply Forall_cons; [rewrite contains_app, Hheader; reflexivity|].
    apply Forall_cons; [reflexivity | apply Forall_nil].
  - inversion Htexts as [|? ? Hfirst Hothers]; subst.
    assert (E : header ++ " " ++ join " | " (first :: others) ++ " | " ++ credit
                = join " | " ((header ++ " " ++ first) :: (others ++ [credit])%list)).
    { rewrite <- (append_assoc' header " " first), join_head.
      rewrite (join_last " | " credit (first :: others)) by discriminate.
      now rewrite !append_assoc'. }
    rewrite E. apply split_join; [discriminate|].
    constructor.
    + rewrite !contains_app, Hheader, Hfirst. reflexivity.
    + apply Forall_app. split; [exact Hothers|].
      apply Forall_cons; [reflexivity | apply Forall_nil].
Qed.

Lemma parts_of_reply_witness :
  exists reply,
    @get_weather no_externals (mk_bundle "Boston, MA, USA" "America/New_York")
      [("epa_health_concern", JObject (mk_value_map (Some (VStr "Good")) None));
       ("lat", JOther);
       ("humidity", JObject (mk_value_map (Some (VInt 55)) (Some (VStr "%"))))]
    = Ok reply
    /\ split " | " reply
       = [bold "[Boston, MA, USA]" ++ " " ++ bold "Humidity:" ++ " 55%";
          bold "Air Quality:" ++ " Good";
          "Powered by ClimaCell API (https://www.climacell.co/weather-api)"].
Proof.
  apply (@parts_of_reply no_externals
           (mk_bundle "Boston, MA, USA" "America/New_York")
           [("epa_health_concern", JObject (mk_value_map (Some (VStr "Good")) None));
            ("lat", JOther);
            ("humidity", JObject (mk_value_map (Some (VInt 55)) (Some (VStr "%"))))]
           [bold "Humidity:" ++ " 55%"; bold "Air Quality:" ++ " Good"]).
  - reflexivity.
  - apply Forall_cons; [reflexivity|]. apply Forall_cons; [reflexivity | apply Forall_nil].
  - vm_compute. reflexivity.
Defined.

(** ** The order of the response *)

Lemma unranked_top (kv : string * json) :
  unranked kv = (field_rank kv =? 999)%Z.
Proof.
  unfold unranked, ranked, field_rank. pose proof (sort_key_spec (fst kv)) as H.
  destruct (lookup (fst kv) SORTED_FIELDS) as [r|]; cbn [negb].
  - destruct H as [-> H]. symmetry. apply Z.eqb_neq. lia.
  - now rewrite H.
Qed.

Lemma sorted_ranked_unranked (data : dict json) :
  sorted field_rank data
  = (filter ranked (sorted field_rank data) ++ filter unranked data)%list.
Proof.
  rewrite (sorted_cut field_rank 999 _ (sorted_sorted field_rank data)) at 1.
  f_equal.
  - apply filter_ext. intro kv. symmetry. apply ranked_below.
  - transitivity (filter (fun kv => (field_rank kv =? 999)%Z) (sorted field_rank data)).
    + apply filter_ext. intro kv.
      rewrite <- unranked_top. unfold unranked. now rewrite ranked_below.
    + rewrite sorted_stable. apply filter_ext. intro kv. symmetry. apply unranked_top.
Qed.

Lemma sorted_ranked_unique (data data' : dict json) :
  NoDup (keys data) -> Permutation data data' ->
  filter ranked (sorted field_rank data) = filter ranked (sorted field_rank data').
Proof.
  intros Hnd Hp.
  apply (sorted_unique (fun a b => (field_rank a <= field_rank b)%Z)).
  - intros a b Ha Hb Hab Hba.
    apply filter_In in Ha as [Ha Ra]. apply filter_In in Hb as [Hb Rb].
    apply sorted_In in Ha, Hb.
    apply (same_key_same_field data a b Hnd Ha Hb).
    unfold ranked in Ra, Rb. unfold field_rank in Hab, Hba.
    destruct (lookup (fst a) SORTED_FIELDS) as [r|] eqn:Ea; [|discriminate].
    destruct (lookup (fst b) SORTED_FIELDS) as [r'|] eqn:Eb; [|discriminate].
    apply (sort_key_injective _ _ _ _ Ea Eb). lia.
  - apply filter_sorted, sorted_sorted.
  - apply filter_sorted, sorted_sorted.
  - apply filter_perm.
    rewrite (sorted_perm field_rank data), (sorted_perm field_rank data').
    exact Hp.
Qed.

Lemma parse_data_passed_over {ext : Externals} (fields rest : dict json)
  (timezone : string) :
  Forall passed_over rest ->
  _parse_data ((fields ++ rest)%list) timezone = _parse_data fields timezone.
Proof.
  unfold _parse_data. induction 1 as [|[k v] rest H _ IH].
  - now rewrite app_nil_r.
  - rewrite (parse_loop_continue fields rest k v timezone "" 0
               (passed_over_continue (k, v) timezone H)).
    exact IH.
Qed.

(** X12: the reply does not depend on the order in which the response lists
    its fields, when the names that [SORTED_FIELDS] lacks are those of fields
    that the loop passes over, as [lat], [lon] and [observation_time] are. *)
Theorem reply_order_independent {ext : Externals} (b : bundle)
  (data data' : dict json) :
  NoDup (keys data) ->
  Permutation data data' ->
  Forall passed_over (filter unranked data) ->
  get_weather b data = get_weather b data'.
Proof.
  intros Hnd Hp Hover.
  assert (Hnd' : NoDup (keys data')).
  { refine (Permutation_NoDup _ Hnd). unfold keys. now apply Permutation_map. }
  assert (Hover' : Forall passed_over (filter unranked data')).
  { rewrite Forall_forall in *. intros kv Hkv. apply Hover.
    apply (Permutation_in kv (filter_perm unranked data' data (Permutation_sym Hp))).
    exact Hkv. }
  unfold get_weather.
  rewrite (sorted_dict_fields data Hnd), (sorted_dict_fields data' Hnd').
  rewrite (sorted_ranked_unranked data), (sorted_ranked_unranked data').
  rewrite !parse_data_passed_over by assumption.
  now rewrite (sorted_ranked_unique data data' Hnd Hp).
Qed.

Lemma reply_order_independent_witness :
  @get_weather no_externals (mk_bundle "Boston, MA, USA" "America/New_York")
    [("lat", JOther);
     ("epa_health_concern", JObject (mk_value_map (Some (VStr "Good")) None));
     ("humidity", JObject (mk_value_map (Some (VInt 55)) (Some (VStr "%"))))]
  = @get_weather no_externals (mk_bundle "Boston, MA, USA" "America/New_York")
      [("humidity", JObject (mk_value_map (Some (VInt 55)) (Some (VStr "%"))));
       ("lat", JOther);
       ("epa_health_concern", JObject (mk_value_map (Some (VStr "Good")) None))].
Proof.
  apply (@reply_order_independent no_externals).
  - cbn [keys map fst]. repeat constructor; cbn [In]; intuition discriminate.
  - apply Permutation_cons_app with (l1 := [_]) (l2 := [_]). apply perm_swap.
  - vm_compute filter. apply Forall_cons; [|apply Forall_nil].
    left. cbn. tauto.
Defined.

(** * Properties of the commands *)

(** ** The database *)

Lemma get_set_same (store : db) (n k : string) (v : tree) :
  get_nick_value (set_nick_value store n k v) n k = v.
Proof.
  unfold set_nick_value. cbn [get_nick_value]. now rewrite !String.eqb_refl.
Qed.

Lemma get_set_other (store : db) (n k n' k' : string) (v : tree) :
  n' <> n \/ k' <> k ->
  get_nick_value (set_nick_value store n k v) n' k' = get_nick_value store n' k'.
Proof.
  intro H. unfold set_nick_value. cbn [get_nick_value].
  destruct (String.eqb_spec n n') as [->|_], (String.eqb_spec k k') as [->|_];
    cbn [andb]; try reflexivity.
  destruct H as [H | H]; now destruct H.
Qed.

(** ** [get_latlon] *)

Section Geocoding.

Context {ext : Externals} {net : Services}.

(** [get_latlon] on a response with a first result. *)
Lemma get_latlon_first (address key : string) (data results first : tree) :
  geocode address key = Ok data ->
  getitem data "results" = Ok results ->
  getitem_0 results = Ok first ->
  get_latlon address key
  = match getitem first "formatted_address" with
    | Raise _ => (Leaf VNone, Leaf VNone, Leaf VNone)
    | Ok loc =>
        match (geometry <- getitem first "geometry" ;;
               location <- getitem geometry "location" ;;
               getitem location "lat") with
        | Raise _ => (Leaf VNone, Leaf VNone, loc)
        | Ok lat =>
            match (geometry <- getitem first "geometry" ;;
                   location <- getitem geometry "location" ;;
                   getitem location "lng") with
            | Raise _ => (lat, Leaf VNone, loc)
            | Ok lon => (lat, lon, loc)
            end
        end
    end.
Proof.
  intros Hdata Hresults Hfirst. unfold get_latlon.
  rewrite Hdata. cbn [bind]. rewrite Hresults. cbn [bind]. now rewrite Hfirst.
Qed.

Lemma get_latlon_falsy (address key : string)
  (data results first geometry spot latitude : tree) :
  geocode address key = Ok data ->
  getitem data "results" = Ok results ->
  getitem_0 results = Ok first ->
  getitem first "geometry" = Ok geometry ->
  getitem geometry "location" = Ok spot ->
  getitem spot "lat" = Ok latitude ->
  truth latitude = false ->
  truth (fst (fst (get_latlon address key))) = false.
Proof.
  intros Hdata Hresults Hfirst Hgeometry Hspot Hlat Hfalsy.
  rewrite (get_latlon_first address key data results first Hdata Hresults Hfirst).
  rewrite Hgeometry. cbn [bind]. rewrite Hspot. cbn [bind]. rewrite Hlat.
  destruct (getitem first "formatted_address") as [loc|e]; [|reflexivity].
  destruct (getitem spot "lng"); exact Hfalsy.
Qed.

End Geocoding.

(** X13: a latitude that passes the test [if not latitude] of the commands
    is that of the first result of the response, and the location that comes
    with it is the formatted address of that result; the longitude is that
    of the first result too, or [None] when the result has none. *)
Theorem get_latlon_found {ext : Externals} {net : Services}
  (address key : string) (latitude longitude location : tree) :
  get_latlon address key = (latitude, longitude, location) ->
  truth latitude = true ->
  exists data results first geometry spot,
    geocode address key = Ok data
    /\ getitem data "results" = Ok results
    /\ getitem_0 results = Ok first
    /\ getitem first "formatted_address" = Ok location
    /\ getitem first "geometry" = Ok geometry
    /\ getitem geometry "location" = Ok spot
    /\ getitem spot "lat" = Ok latitude
    /\ match getitem spot "lng" with
       | Ok lng => longitude = lng
       | Raise _ => longitude = Leaf VNone
       end.
Proof.
  unfold get_latlon. intros H Htruth.
  destruct (geocode address key) as [data|e] eqn:Hdata; cbn [bind] in H;
    [|injection H as <- _ _; discriminate Htruth].
  destruct (getitem data "results") as [results|e] eqn:Hresults; cbn [bind] in H;
    [|injection H as <- _ _; discriminate Htruth].
  destruct (getitem_0 results) as [first|e] eqn:Hfirst;
    [|injection H as <- _ _; discriminate Htruth].
  destruct (getitem first "formatted_address") as [loc|e] eqn:Hloc;
    [|injection H as <- _ _; discriminate Htruth].
  destruct (getitem first "geometry") as [geometry|e] eqn:Hgeometry; cbn [bind] in H;
    [|injection H as <- _ _; discriminate Htruth].
  destruct (getitem geometry "location") as [spot|e] eqn:Hspot; cbn [bind] in H;
    [|injection H as <- _ _; discriminate Htruth].
  destruct (getitem spot "lat") as [lat|e] eqn:Hlat;
    [|injection H as <- _ _; discriminate Htruth].
  exists data, results, first, geometry, spot.
  destruct (getitem spot "lng") as [lng|e]; injection H as <- <- <-;
    repeat (split; [assumption || reflexivity|]); reflexivity.
Qed.

Lemma get_latlon_found_witness :
  exists data results first geometry spot,
    @geocode sample_services "boston, no longitude" "google-key" = Ok data
    /\ getitem data "results" = Ok results
    /\ getitem_0 results = Ok first
    /\ getitem first "formatted_address" = Ok (Leaf (VStr "Boston, MA, USA"))
    /\ getitem first "geometry" = Ok geometry
    /\ getitem geometry "location" = Ok spot
    /\ getitem spot "lat" = Ok (Leaf (VFloat (423600825 # 10000000)))
    /\ match getitem spot "lng" with
       | Ok lng => Leaf VNone = lng
       | Raise _ => Leaf VNone = Leaf VNone
       end.
Proof.
  apply (@get_latlon_found no_externals sample_services
           "boston, no longitude" "google-key"); reflexivity.
Defined.

(** ** Places that are not found *)

(** X14: a place whose latitude is falsy, as the latitude [0] of a place on
    the equator is, counts as not found although the geocoder found it:
    [setlocation] stores nothing and both commands reply that they could not
    find it, returning [NOLIMIT]. *)
Theorem latitude_zero_not_found {ext : Externals} {net : Services}
  (bot : config) (store : db) (t : trigger) (arg : string)
  (data results first geometry spot latitude : tree) :
  missing (google_api_key bot) = false ->
  argument t = Some arg ->
  geocode (lower (strip arg)) (key_text (google_api_key bot)) = Ok data ->
  getitem data "results" = Ok results ->
  getitem_0 results = Ok first ->
  getitem first "geometry" = Ok geometry ->
  getitem geometry "location" = Ok spot ->
  getitem spot "lat" = Ok latitude ->
  truth latitude = false ->
  set_location bot store t
  = (store, [Reply "I couldn't find a location by that name."], NOLIMIT)
  /\ (missing (climacell_api_key bot) = false ->
      lower (strip arg) <> "chaz" ->
      weather bot store t
      = Ok ([Reply "I couldn't find a location by that name."], NOLIMIT)).
Proof.
  intros Hkey Harg Hdata Hresults Hfirst Hgeometry Hspot Hlat Hfalsy.
  pose proof (get_latlon_falsy _ _ _ _ _ _ _ _
                Hdata Hresults Hfirst Hgeometry Hspot Hlat Hfalsy) as H.
  split.
  - unfold set_location. rewrite Hkey, Harg.
    destruct (get_latlon _ _) as [[lat lon] loc]. cbn [fst] in H. now rewrite H.
  - intros Hkey' Hchaz. unfold weather. rewrite Hkey', Hkey, Harg.
    apply String.eqb_neq in Hchaz. rewrite Hchaz.
    destruct (get_latlon _ _) as [[lat lon] loc]. cbn [fst] in H. now rewrite H.
Qed.

Lemma latitude_zero_not_found_witness :
  @set_location no_externals sample_services sample_config []
    (mk_trigger "alice" "setlocation" (Some "quito"))
  = ([], [Reply "I couldn't find a location by that name."], NOLIMIT).
Proof.
  apply (@latitude_zero_not_found no_externals sample_services sample_config []
           (mk_trigger "alice" "setlocation" (Some "quito")) "quito"
           (geocoded "Mitad del Mundo, Quito, Ecuador"
              [("lat", Leaf (VFloat 0)); ("lng", Leaf (VFloat (-784558 # 10000)))])
           (Arr [Obj [("formatted_address", Leaf (VStr "Mitad del Mundo, Quito, Ecuador"));
                      ("geometry",
                       Obj [("location",
                             Obj [("lat", Leaf (VFloat 0));
                                  ("lng", Leaf (VFloat (-784558 # 10000)))])])]])
           (Obj [("formatted_address", Leaf (VStr "Mitad del Mundo, Quito, Ecuador"));
                 ("geometry",
                  Obj [("location",
                        Obj [("lat", Leaf (VFloat 0));
                             ("lng", Leaf (VFloat (-784558 # 10000)))])])])
           (Obj [("location",
                  Obj [("lat", Leaf (VFloat 0));
                       ("lng", Leaf (VFloat (-784558 # 10000)))])])
           (Obj [("lat", Leaf (VFloat 0)); ("lng", Leaf (VFloat (-784558 # 10000)))])
           (Leaf (VFloat 0))); reflexivity.
Defined.

(** ** A location that is set, and the weather there *)

(** X15: once [setlocation] has found a place whose formatted address is
    truthy, [weather] without an argument, from the same nick, does what
    [weather] with the argument of [setlocation] does; the argument [chaz]
    apart, which [weather] alone takes for Capitol Hill. *)
Theorem setlocation_then_weather {ext : Externals} {net : Services}
  (bot : config) (store : db) (t t' : trigger) (arg : string)
  (latitude longitude location : tree) :
  missing (climacell_api_key bot) = false ->
  missing (google_api_key bot) = false ->
  argument t = Some arg ->
  lower (strip arg) <> "chaz" ->
  get_latlon (lower (strip arg)) (key_text (google_api_key bot))
  = (latitude, longitude, location) ->
  truth latitude = true ->
  truth location = true ->
  argument t' = None ->
  nick t' = nick t ->
  weather bot (fst (fst (set_location bot store t))) t' = weather bot store t.
Proof.
  intros Hkey' Hkey Harg Hchaz Hfound Hlat Hloc Harg' Hnick.
  apply String.eqb_neq in Hchaz.
  unfold weather, set_location.
  rewrite Hkey', Hkey, Harg, Harg', Hchaz, Hfound, Hlat, Hnick. cbn [fst].
  rewrite get_set_same.
  rewrite (get_set_other _ _ "location" _ "longitude") by (right; discriminate).
  rewrite get_set_same.
  rewrite (get_set_other _ _ "location" _ "latitude") by (right; discriminate).
  rewrite (get_set_other _ _ "longitude" _ "latitude") by (right; discriminate).
  rewrite get_set_same. now rewrite Hloc.
Qed.

Lemma setlocation_then_weather_witness :
  @weather no_externals sample_services sample_config
    (fst (fst (@set_location no_externals sample_services sample_config []
                 (mk_trigger "alice" "setlocation" (Some "boston")))))
    (mk_trigger "alice" "wz" None)
  = @weather no_externals sample_services sample_config []
      (mk_trigger "alice" "setlocation" (Some "boston")).
Proof.
  apply (@setlocation_then_weather no_externals sample_services sample_config []
           (mk_trigger "alice" "setlocation" (Some "boston"))
           (mk_trigger "alice" "wz" None) "boston"
           (Leaf (VFloat (423600825 # 10000000)))
           (Leaf (VFloat (-710588801 # 10000000)))
           (Leaf (VStr "Boston, MA, USA")));
    try reflexivity.
  cbn. discriminate.
Defined.

(** X16: a place whose formatted address is falsy, an empty text say, is
    stored and acknowledged by [setlocation], and yet [weather] without an
    argument then answers that it does not know where the nick lives. *)
Theorem empty_address_forgotten {ext : Externals} {net : Services}
  (bot : config) (store : db) (t t' : trigger) (arg : string)
  (latitude longitude location : tree) :
  missing (climacell_api_key bot) = false ->
  missing (google_api_key bot) = false ->
  argument t = Some arg ->
  get_latlon (lower (strip arg)) (key_text (google_api_key bot))
  = (latitude, longitude, location) ->
  truth latitude = true ->
  truth location = false ->
  argument t' = None ->
  nick t' = nick t ->
  snd (fst (set_location bot store t))
  = [Reply ("I now have you at " ++ tree_str location ++ ".")]
  /\ weather bot (fst (fst (set_location bot store t))) t'
     = Ok ([Say ("I don't know where you live. Give me a location, like "
                 ++ help_prefix bot ++ group_1 t'
                 ++ " London, or tell me where you live by saying "
                 ++ help_prefix bot ++ "setlocation London, for example.")],
           ReturnNone).
Proof.
  intros Hkey' Hkey Harg Hfound Hlat Hloc Harg' Hnick.
  unfold weather, set_location.
  rewrite Hkey', Hkey, Harg, Harg', Hfound, Hlat, Hnick. cbn [fst snd].
  split; [reflexivity|].
  now rewrite get_set_same, Hloc.
Qed.

Lemma empty_address_forgotten_witness :
  snd (fst (@set_location no_externals sample_services sample_config []
              (mk_trigger "alice" "setlocation" (Some "point nemo"))))
  = [Reply "I now have you at ."]
  /\ @weather no_externals sample_services sample_config
       (fst (fst (@set_location no_externals sample_services sample_config []
                    (mk_trigger "alice" "setlocation" (Some "point nemo")))))
       (mk_trigger "alice" "wz" None)
     = Ok ([Say ("I don't know where you live. Give me a location, like "
                 ++ ".wz London, or tell me where you live by saying "
                 ++ ".setlocation London, for example.")],
           ReturnNone).
Proof.
  apply (@empty_address_forgotten no_externals sample_services sample_config []
           (mk_trigger "alice" "setlocation" (Some "point nemo"))
           (mk_trigger "alice" "wz" None) "point nemo"
           (Leaf (VFloat (-488767 # 10000)))
           (Leaf (VFloat (-1233933 # 10000)))
           (Leaf (VStr ""))); reflexivity.
Defined.

(** X17: [setlocation] writes the latitude, the longitude and the location
    of the nick that asks, and nothing else: every other value of the
    database reads as before, whether the place was found or not. *)
Theorem set_location_frame {ext : Externals} {net : Services}
  (bot : config) (store : db) (t : trigger) (n k : string) :
  n <> nick t \/ ~ In k ["latitude"; "longitude"; "location"] ->
  get_nick_value (fst (fst (set_location bot store t))) n k
  = get_nick_value store n k.
Proof.
  intro H. unfold set_location.
  destruct (missing (google_api_key bot)); [reflexivity|].
  destruct (argument t) as [arg|]; [|reflexivity].
  destruct (get_latlon _ _) as [[latitude longitude] location].
  destruct (truth latitude); [|reflexivity]. cbn [fst].
  assert (Hother : forall key, In key ["latitude"; "longitude"; "location"] ->
                               n <> nick t \/ k <> key).
  { intros key Hkey. destruct H as [H | H]; [now left | right].
    intros ->. now apply H. }
  rewrite !get_set_other; [reflexivity| | |]; apply Hother; cbn [In]; tauto.
Qed.

Lemma set_location_frame_witness :
  get_nick_value
    (fst (fst (@set_location no_externals sample_services sample_config
                 [("alice", "timezone", Leaf (VStr "Europe/Oslo"))]
                 (mk_trigger "alice" "setlocation" (Some "boston")))))
    "alice" "timezone"
  = Leaf (VStr "Europe/Oslo").
Proof.
  apply (@set_location_frame no_externals sample_services sample_config
           [("alice", "timezone", Leaf (VStr "Europe/Oslo"))]
           (mk_trigger "alice" "setlocation" (Some "boston")) "alice" "timezone").
  right. cbn [In]. intros [H | [H | [H | []]]]; discriminate H.
Defined.

(** ** The messages of [weather] *)

(** X18: when [weather] returns it has posted one message, or the two
    halves of a long reply; it returns [NOLIMIT] after the reply that no
    place was found and at no other time. *)
Theorem weather_messages {ext : Externals} {net : Services}
  (bot : config) (store : db) (t : trigger)
  (messages : list action) (r : returned) :
  weather bot store t = Ok (messages, r) ->
  ((exists text, messages = [Reply text] \/ messages = [Say text])
   \/ (exists a b, messages = [Say a; Say b]))
  /\ (r = NOLIMIT <-> messages = [Reply "I couldn't find a location by that name."]).
Proof.
  assert (Hreport : forall latitude longitude location,
            report bot latitude longitude location = Ok (messages, r) ->
            ((exists text, messages = [Reply text] \/ messages = [Say text])
             \/ (exists a b, messages = [Say a; Say b]))
            /\ (r = NOLIMIT
                <-> messages = [Reply "I couldn't find a location by that name."])).
  { intros latitude longitude location. unfold report.
    destruct (_get_timezone _ _ _) as [zone|e]; cbn [bind]; [|discriminate].
    destruct (realtime _ _ _ _ _) as [data|e]; cbn [bind]; [|discriminate].
    destruct (get_weather _ data) as [reply|e]; cbn [bind]; [|discriminate].
    unfold weather_say. destruct (475 <? py_len (repr reply))%nat; cbn [map];
      intro H; injection H as <- <-.
    - split; [right; eauto|]. split; discriminate.
    - split; [left; eauto|]. split; discriminate. }
  unfold weather.
  destruct (missing (climacell_api_key bot)).
  { intro H. injection H as <- <-. split; [left; eauto|]. split; discriminate. }
  destruct (missing (google_api_key bot)).
  { intro H. injection H as <- <-. split; [left; eauto|]. split; discriminate. }
  destruct (argument t) as [arg|].
  - destruct (get_latlon _ _) as [[latitude longitude] location].
    destruct (truth latitude); [apply Hreport|].
    intro H. injection H as <- <-. split; [left; eauto|]. split; reflexivity.
  - destruct (truth (get_nick_value store (nick t) "location")); [apply Hreport|].
    intro H. injection H as <- <-. split; [left; eauto|]. split; discriminate.
Qed.

Lemma weather_messages_witness :
  (exists text,
      [Reply "I couldn't find a location by that name."] = [Reply text]
      \/ [Reply "I couldn't find a location by that name."] = [Say text])
  \/ (exists a b, [Reply "I couldn't find a location by that name."] = [Say a; Say b]).
Proof.
  apply (@weather_messages no_externals sample_services sample_config []
           (mk_trigger "alice" "wz" (Some "atlantis"))
           [Reply "I couldn't find a location by that name."] NOLIMIT).
  reflexivity.
Defined.
